(** * Oracle feeder (gear-dapps/oracle, producer): model and properties

    The feeder is a Node.js process.  It reads the oracle program's queue of
    pending requests once, listens for [UserMessageSent] events, decodes
    request notifications out of their raw payload and answers each request
    with an [UpdateValue] message.  A second variant pushes the values of a
    randomness beacon on a timer.

    The development is organised as follows.
    - [JS]: the values and built-ins of the host language the feeder uses
      ([parseInt], decimal printing, doubles, [Math.floor], [Buffer]);
      doubles are those of the Standard Library's [SpecFloat].
    - [Effects]: exceptions, the trace of what the process does, the answers
      of the external collaborators, and the monad that threads them.
    - [Feeder]: the producer ([src/producer/src/index.ts]).
    - [Beacon]: the timer driven variant ([src/unnamed/part_000]).
    - [Host]: the event loop and the two processes.
    - [Layout], [Scenario]: the vocabulary of the statements and the
      concrete runs they are tried on.
    - Then the facts: IEEE 754 rounding in integer arithmetic, printing and
      parsing, the decoder, the submitter, the orchestrator, the event loop,
      and the properties C1 to C10. *)

From Stdlib Require Import ZArith NArith List String Ascii Bool Lia.
From Stdlib.Strings Require Import Byte.
From Stdlib Require Import Decimal DecimalString DecimalN DecimalPos.
From Stdlib Require Import SpecFloat.
Import ListNotations.
Local Open Scope string_scope.
Local Open Scope list_scope.
Local Open Scope Z_scope.

(* ================================================================== *)
(** * The host language *)
(* ================================================================== *)

Module JS.

(** ** Numbers

    A JavaScript number is a binary64 double.  Apart from the product inside
    [getRandomNumber], which is computed on [spec_float], every number the
    feeder holds is [NaN], an infinity or an integer valued double; [Num z]
    stands for the double whose value is the integer [z].  The two zeros are
    both [Num 0]: the feeder only tests a number with [===], which does not
    tell them apart. *)

Inductive number : Type :=
| NaN
| Infinity (negative : bool)
| Num (z : Z).

Definition number_eqb (a b : number) : bool :=
  match a, b with
  | Num x, Num y => x =? y
  | Infinity s, Infinity t => Bool.eqb s t
  | _, _ => false                      (* NaN === NaN is false *)
  end.

(** The double nearest to an integer, in the Standard Library's
    specification of IEEE 754 arithmetic at the binary64 format. *)
Definition binary64 (z : Z) : spec_float := binary_normalize 53 1024 z 0 false.

(** [Math.floor]. *)
Definition Math_floor (x : spec_float) : number :=
  match x with
  | S754_nan => NaN
  | S754_infinity s => Infinity s
  | S754_zero _ => Num 0
  | S754_finite s m e => Num (Z.shiftl (cond_Zopp s (Zpos m)) e)
  end.

(** The Number value for a mathematical integer: the nearest double, an
    infinity from [2^1024] on.  That double is an integer, which
    [Math_floor] reads off. *)
Definition to_number (z : Z) : number := Math_floor (binary64 z).

(** [Number.MAX_SAFE_INTEGER + 1] *)
Definition two53 : Z := 2 ^ 53.

(** What [Math.random()] may return: a double [x] with [0 <= x < 1]. *)
Definition unit_double (r : spec_float) : bool :=
  match r with
  | S754_zero false => true
  | S754_finite false m e => bounded 53 1024 m e && (Zpos m <? 2 ^ (- e))
  | _ => false
  end.

(** ** Strings

    Strings are sequences of code units below 256; everything the feeder
    prints and parses is ASCII. *)

Definition code (c : ascii) : Z := Z.of_N (N_of_ascii c).

(** White space and line terminators among those code units. *)
Definition is_white (c : ascii) : bool :=
  let n := code c in
  ((9 <=? n) && (n <=? 13)) || (n =? 32) || (n =? 160).

Fixpoint trim_start (s : string) : string :=
  match s with
  | String c rest => if is_white c then trim_start rest else s
  | EmptyString => s
  end.

(** The value of a character as a digit, [0-9], [a-z] or [A-Z]. *)
Definition digit_of (c : ascii) : option Z :=
  let n := code c in
  if (48 <=? n) && (n <=? 57) then Some (n - 48)
  else if (97 <=? n) && (n <=? 122) then Some (n - 87)
  else if (65 <=? n) && (n <=? 90) then Some (n - 55)
  else None.

(** Value of the longest prefix of [s] made of radix-[R] digits, continuing
    from [acc]; [None] when no digit has been read. *)
Fixpoint parse_digits (R : Z) (s : string) (acc : option Z) : option Z :=
  match s with
  | EmptyString => acc
  | String c rest =>
      match digit_of c with
      | Some d =>
          if d <? R
          then parse_digits R rest
                 (Some (R * match acc with Some a => a | None => 0 end + d))
          else acc
      | None => acc
      end
  end.

(** [parseInt(s)] with no radix argument (ECMA-262, 19.2.5): leading white
    space is dropped, then an optional sign, then [0x] or [0X] selects radix
    16 and anything else radix 10; the longest prefix of digits is the value
    and what follows it is ignored; no digit at all gives [NaN]. *)
Definition parseInt (s : string) : number :=
  let s := trim_start s in
  let '(neg, s) :=
    match s with
    | String "-" rest => (true, rest)
    | String "+" rest => (false, rest)
    | _ => (false, s)
    end%char in
  let '(R, s) :=
    match s with
    | String "0" (String "x" rest) => (16, rest)
    | String "0" (String "X" rest) => (16, rest)
    | _ => (10, s)
    end%char in
  match parse_digits R s None with
  | None => NaN
  | Some m => to_number (if neg then - m else m)
  end.

(** Decimal printing of a non-negative integer: [toString()] of a [u8] and
    of a [BigInt]. *)
Definition toString (n : Z) : string :=
  NilZero.string_of_uint (N.to_uint (Z.to_N n)).

(** ** Arrays and buffers *)

(** [a.slice(from, to)] and [a.slice(from)], non-negative indices. *)
Definition slice {A : Type} (a : list A) (from to : nat) : list A :=
  firstn (to - from) (skipn from a).

Definition slice_from {A : Type} (a : list A) (from : nat) : list A :=
  skipn from a.

(** [Buffer.from(array)]: every entry is stored modulo 256, what is not a
    finite number as 0. *)
Definition toUint8 (x : number) : Z :=
  match x with
  | Num z => z mod 256
  | _ => 0
  end.

Definition Buffer_from (a : list number) : list Z := map toUint8 a.

(** The unsigned integer whose little-endian bytes are [bs]. *)
Fixpoint le_combine (bs : list Z) : Z :=
  match bs with
  | [] => 0
  | b :: rest => b + 256 * le_combine rest
  end.

(** [buf.readBigUInt64LE(offset)]: [None] stands for the [RangeError] that
    Node raises when fewer than 8 bytes are left at [offset]. *)
Definition readBigUInt64LE (buf : list Z) (offset : nat) : option Z :=
  if (offset + 8 <=? List.length buf)%nat
  then Some (le_combine (firstn 8 (skipn offset buf)))
  else None.

End JS.

Import JS.

(* ================================================================== *)
(** * Effects: exceptions, the console, the external collaborators *)
(* ================================================================== *)

Module Effects.

Inductive error : Type :=
| TypeError                         (* a property read on [undefined] *)
| RangeError                        (* a buffer read out of bounds *)
| Error (message : string)          (* [new Error(message)] *)
| Failure (reason : string).        (* raised by an external collaborator *)

Inductive result (A : Type) : Type :=
| Ok (a : A)
| Throw (e : error).
Arguments Ok {A} a.
Arguments Throw {A} e.

(** The argument of [updateOracleValue] in the producer
    ([OracleUpdateValue] of [./types]). *)
Record OracleUpdateValue : Type := { id : number; value : number }.

(** The argument of [updateOracleValue] in the beacon variant
    ([[number, Random]], with [Random] of [./types]). *)
Record Random : Type :=
  { randomness : list string; signature : string; prevSignature : string }.

(** The object handed to [CreateType.create("Action", ...)]. *)
Inductive Action : Type :=
| UpdateValue (id value : number)
| SetRandomValue (round : number) (randomness0 randomness1 : option string)
                 (signature prev_signature : string).

Definition Hex : Type := string.
Definition Metadata : Type := string.

Record GasInfo : Type := { min_limit : Z }.

(** The argument of [gearApi.message.send]. *)
Record Message : Type :=
  { destination : string; payload : Hex; gasLimit : Z; msg_value : Z }.

(** A status event of a submitted extrinsic, as the callback of
    [signAndSend] sees it. *)
Record SubmittableResult : Type := { isError : bool }.

(** The answers of the external collaborators (the [@gear-js/api] module and
    the node behind it) in the course of one submission.  [signAndSend] with
    a callback either rejects or resolves once the subscription stands; the
    status events it lists are handed to the callback afterwards, one call
    each, by the library. *)
Record GearApi : Type :=
  { getWasmMetadata : result Metadata;
    CreateType_create : Action -> Metadata -> result Hex;
    decodeAddress : result string;
    calculateGas_handle : string -> string -> Hex -> Z -> bool -> result GasInfo;
    message_send : Message -> result Message;
    signAndSend : Message -> result (list SubmittableResult) }.

(** What one [console.log] call prints, by template. *)
Inductive log_line : Type :=
| LogStarted
| LogUpdateValue (id value : number)          (* [+] UpdateValue(id, value) *)
| LogFailed                                   (* [-] Failed to send tx *)
| LogNewRequest                               (* [+] New request! *)
| LogFrom (source : string)
| LogTo (destination : string)
| LogID (id : number)
| LogCaller (caller : list number)
| LogNewTick (round : number)                 (* New tick: round *)
| LogSetRandom (round : number) (random : Random)
| LogFailedWith (e : error).                  (* [-] Failed to send tx: e *)

(** A callback that the library holds and calls later: the status callback
    of [signAndSend], closed over the submission it belongs to. *)
Inductive job : Type :=
| StatusCallback (item : OracleUpdateValue) (event : SubmittableResult)
| BeaconStatusCallback (round : number) (random : Random)
                       (event : SubmittableResult).

(** What an observer of the process sees, in order. *)
Inductive event : Type :=
| ConsoleLog (line : log_line)
| Invoked (item : OracleUpdateValue)      (* entry of the producer's [updateOracleValue] *)
| InvokedBeacon (round : number)          (* entry of the beacon's [updateOracleValue] *)
| CalledGetWasmMetadata
| CalledCreateType (a : Action)
| CalledCalculateGas (payload : Hex)
| CalledMessageSend (m : Message)
| CalledSignAndSend (m : Message)
| CalledFetchRandomValue
| Unhandled (e : error).
  (* an exception that left a callback, or a rejected promise nobody awaits:
     no handler of the feeder has seen it *)

Record world : Type := mkWorld
  { trace : list event;        (* oldest first *)
    pending : list job;        (* callbacks the library will call *)
    randoms : nat;             (* calls of [Math.random] so far *)
    submissions : nat }.       (* submissions started so far *)

Definition start : world := mkWorld [] [] 0 0.

(** Computations that may throw and that act on the world. *)
Definition M (A : Type) : Type := world -> result A * world.

Definition ret {A : Type} (a : A) : M A := fun w => (Ok a, w).

Definition bind {A B : Type} (m : M A) (k : A -> M B) : M B :=
  fun w => match m w with
           | (Ok a, w') => k a w'
           | (Throw e, w') => (Throw e, w')
           end.

Definition throw {A : Type} (e : error) : M A := fun w => (Throw e, w).

(** [try { body } catch (error) { handler }] *)
Definition try_catch {A : Type} (body : M A) (handler : error -> M A) : M A :=
  fun w => match body w with
           | (Ok a, w') => (Ok a, w')
           | (Throw e, w') => handler e w'
           end.

Definition emit (e : event) : M unit :=
  fun w => (Ok tt, mkWorld (trace w ++ [e]) (pending w) (randoms w) (submissions w)).

Definition console_log (l : log_line) : M unit := emit (ConsoleLog l).

(** A call to an external collaborator, awaited where it returns a promise:
    the call is recorded, then its answer comes back, a rejection or a
    synchronous throw as an exception at the place of the call. *)
Definition call {A : Type} (mark : event) (answer : result A) : M A :=
  fun w => match emit mark w with
           | (_, w') => (answer, w')
           end.

(** The answer of a call that leaves no mark in the trace. *)
Definition now {A : Type} (answer : result A) : M A := fun w => (answer, w).

Definition enqueue (js : list job) : M unit :=
  fun w => (Ok tt, mkWorld (trace w) (pending w ++ js) (randoms w) (submissions w)).

Fixpoint forM {A : Type} (l : list A) (f : A -> M unit) : M unit :=
  match l with
  | [] => ret tt
  | a :: rest => bind (f a) (fun _ => forM rest f)
  end.

(** A call of an async function whose promise is dropped: nobody is there
    for a rejection. *)
Definition detached (m : M unit) : M unit :=
  try_catch m (fun e => emit (Unhandled e)).

(** The surroundings of a run hand out, call after call, what
    [Math.random()] returns and how the collaborators answer during the
    submission that starts. *)
Definition Math_random (random_source : nat -> spec_float) : M spec_float :=
  fun w => (Ok (random_source (randoms w)),
            mkWorld (trace w) (pending w) (S (randoms w)) (submissions w)).

Definition gearApi_now (api : nat -> GearApi) : M GearApi :=
  fun w => (Ok (api (submissions w)),
            mkWorld (trace w) (pending w) (randoms w) (S (submissions w))).

End Effects.

Import Effects.

Declare Scope js_scope.
Delimit Scope js_scope with js.
Notation "x <- m ;; k" := (bind m (fun x => k))
  (at level 61, m at next level, right associativity) : js_scope.
Notation "m ;; k" := (bind m (fun _ => k))
  (at level 61, right associativity) : js_scope.
Local Open Scope js_scope.

(* ================================================================== *)
(** * The producer ([src/producer/src/index.ts]) *)
(* ================================================================== *)

Module Feeder.

Definition ORACLE_ADDRESS : string := "0x".

(** [OracleQueueItem] of [./types]. *)
Record OracleQueueItem : Type := { item_id : number; item_caller : string }.

(** [getRandomNumber(max)], given what [Math.random()] returned; [max] is
    the integer that the caller writes. *)
Definition getRandomNumber (random : spec_float) (max : Z) : number :=
  Math_floor (SFmul 53 1024 random (binary64 max)).

Definition u8_toString (b : byte) : string := toString (Z.of_N (Byte.to_N b)).

(** What a [UserMessageSent] event yields. *)
Record PendingRequest : Type := { request_id : number; caller : list number }.

(** Lines 134-144 of the event handler, the part that computes [id] and
    [caller] out of the payload (a [Vec<u8>]): [Ok None] when the handler
    leaves the payload alone, [Throw] when one of its steps throws. *)
Definition decodeRequest (payload : list byte) : result (option PendingRequest) :=
  let payloadType := slice payload 0 1 in
  match nth_error payloadType 0 with
  | None => Throw TypeError                     (* [undefined.toString()] *)
  | Some first =>
      if number_eqb (parseInt (u8_toString first)) (Num 0) then
        let payloadId := slice payload 1 17 in
        let buffer :=
          Buffer_from (map (fun value => parseInt (u8_toString value)) payloadId) in
        match readBigUInt64LE buffer 0 with
        | None => Throw RangeError
        | Some big =>
            let id := parseInt (toString big) in
            let payloadCaller := slice_from payload 17 in
            let caller :=
              map (fun value => parseInt (u8_toString value)) payloadCaller in
            Ok (Some {| request_id := id; caller := caller |})
        end
      else Ok None
  end.

(** The status callback given to [signAndSend]. *)
Definition statusCallback (item : OracleUpdateValue) (event : SubmittableResult)
  : M unit :=
  if isError event then throw (Error "Can't send tx")
  else console_log (LogUpdateValue (id item) (value item)).

(** The update submitter.  [decodeAddress] and [payload.toHex()] are
    evaluated as arguments, before the call they belong to. *)
Definition updateOracleValue (gearApi : GearApi) (item : OracleUpdateValue)
  : M unit :=
  emit (Invoked item) ;;
  try_catch
    (oracleMeta <- call CalledGetWasmMetadata (getWasmMetadata gearApi) ;;
     let action := UpdateValue (id item) (value item) in
     payload <- call (CalledCreateType action)
                  (CreateType_create gearApi action oracleMeta) ;;
     sender <- now (decodeAddress gearApi) ;;
     gas <- call (CalledCalculateGas payload)
              (calculateGas_handle gearApi sender ORACLE_ADDRESS payload 0 true) ;;
     let message :=
       {| destination := ORACLE_ADDRESS; payload := payload;
          gasLimit := min_limit gas; msg_value := 0 |} in
     extrinsic <- call (CalledMessageSend message)
                    (message_send gearApi message) ;;
     events <- call (CalledSignAndSend extrinsic)
                 (signAndSend gearApi extrinsic) ;;
     enqueue (map (StatusCallback item) events))
    (fun error => console_log LogFailed).

Section Process.

(** The surroundings of one run of the process: what the successive calls of
    [Math.random] return, how the collaborators answer during the successive
    submissions, and the [RequestsQueue] of the state read at startup, as
    [toHuman()] shows it. *)
Variable random_source : nat -> spec_float.
Variable api : nat -> GearApi.
Variable requests_queue : result (list (string * string)).

Definition getOracleRequestsQueue : M (list OracleQueueItem) :=
  state <- now requests_queue ;;
  ret (map (fun oracleQueueItem : string * string =>
              let '(id, caller) := oracleQueueItem in
              {| item_id := parseInt id; item_caller := caller |})
           state).

(** Step 2 of [main]. *)
Definition reconciliation : M unit :=
  detached
    (oracleQueueItems <- getOracleRequestsQueue ;;
     forM oracleQueueItems
       (fun item =>
          random <- Math_random random_source ;;
          gearApi <- gearApi_now api ;;
          detached
            (updateOracleValue gearApi
               {| id := item_id item;
                  value := getRandomNumber random 9999999999999 |}))).

(** Step 3 of [main]: the callback of the [UserMessageSent] subscription. *)
Definition onUserMessageSent (source destination : string) (payload : list byte)
  : M unit :=
  if negb (String.eqb source ORACLE_ADDRESS) then ret tt
  else
    match decodeRequest payload with
    | Throw e => throw e
    | Ok None => ret tt
    | Ok (Some request) =>
        console_log LogNewRequest ;;
        console_log (LogFrom source) ;;
        console_log (LogTo destination) ;;
        console_log (LogID (request_id request)) ;;
        console_log (LogCaller (caller request)) ;;
        random <- Math_random random_source ;;
        gearApi <- gearApi_now api ;;
        detached
          (updateOracleValue gearApi
             {| id := request_id request;
                value := getRandomNumber random 9999999999999 |})
    end.

End Process.

End Feeder.

(* ================================================================== *)
(** * The beacon variant ([src/unnamed/part_000]) *)
(* ================================================================== *)

Module Beacon.

Definition ORACLE_ADDRESS : string := "0x".

Definition statusCallback (round : number) (random : Random)
  (event : SubmittableResult) : M unit :=
  if isError event then throw (Error "Can't send tx")
  else console_log (LogSetRandom round random).

Definition updateOracleValue (data : number * Random) (gearApi : GearApi)
  : M unit :=
  let '(round, random) := data in
  emit (InvokedBeacon round) ;;
  try_catch
    (oracleMeta <- call CalledGetWasmMetadata (getWasmMetadata gearApi) ;;
     let action :=
       SetRandomValue round
         (nth_error (randomness random) 0) (nth_error (randomness random) 1)
         (signature random) (prevSignature random) in
     payload <- call (CalledCreateType action)
                  (CreateType_create gearApi action oracleMeta) ;;
     sender <- now (decodeAddress gearApi) ;;
     gas <- call (CalledCalculateGas payload)
              (calculateGas_handle gearApi sender ORACLE_ADDRESS payload 0 true) ;;
     let message :=
       {| destination := ORACLE_ADDRESS; payload := payload;
          gasLimit := min_limit gas; msg_value := 0 |} in
     extrinsic <- call (CalledMessageSend message)
                    (message_send gearApi message) ;;
     events <- call (CalledSignAndSend extrinsic)
                 (signAndSend gearApi extrinsic) ;;
     enqueue (map (BeaconStatusCallback round random) events))
    (fun error => console_log (LogFailedWith error)).

Section Process.

(** [fetchRandomValue] of [./utils] is not among the sources: the model takes
    what its promise settles to, tick after tick. *)
Variable fetchRandomValue : nat -> result (number * Random).
Variable api : nat -> GearApi.

(** The callback of [setInterval], at its [n]-th call. *)
Definition tick (n : nat) : M unit :=
  data <- call CalledFetchRandomValue (fetchRandomValue n) ;;
  console_log (LogNewTick (fst data)) ;;
  gearApi <- gearApi_now api ;;
  updateOracleValue data gearApi.

End Process.

End Beacon.

(* ================================================================== *)
(** * The event loop and the two processes *)
(* ================================================================== *)

Module Host.

Definition run_job (j : job) : M unit :=
  match j with
  | StatusCallback item event => Feeder.statusCallback item event
  | BeaconStatusCallback round random event =>
      Beacon.statusCallback round random event
  end.

(** One turn: the task runs from the top of the stack, so an exception it
    lets out, or the rejection of the promise it returns, meets no handler
    of the feeder.  What the host does then (a warning, the end of the
    process) is its own policy and is not modelled. *)
Definition turn (task : M unit) (w : world) : world :=
  snd (detached task w).

(** The library calls the callbacks it holds, each in a turn of its own. *)
Definition deliver (w : world) : world :=
  fold_left (fun w j => turn (run_job j) w) (pending w)
            (mkWorld (trace w) [] (randoms w) (submissions w)).

Definition step (task : M unit) (w : world) : world := deliver (turn task w).

Record UserMessageSent : Type :=
  { source : string; dest : string; data : list byte }.

(** ** The producer as a process

    Three things about a run are decided outside the feeder's code; the
    model takes them as given.

    The library behind [subscribeToGearEvent] calls the handler for the
    events of one block from a single loop: an exception that leaves the
    handler leaves the loop, and the events that follow in that block are
    not handled.

    [main] does not await the state read of startup: it subscribes at once,
    and the read settles between two blocks, [before] holding the blocks
    that come earlier and [after] those that come later.

    What becomes of the process once an error has escaped is the policy of
    the host (Node ends the process on an unhandled rejection unless it is
    told otherwise): [goes_on e] tells whether the process is still there
    after [e] has escaped. *)

(** The subscription's callback on the events of one block. *)
Definition onBlock (random_source : nat -> spec_float) (api : nat -> GearApi)
  (events : list UserMessageSent) : M unit :=
  forM events
    (fun ev =>
       Feeder.onUserMessageSent random_source api
         (source ev) (dest ev) (data ev)).

Section Policy.

Variable goes_on : error -> bool.

(** The process is there as long as the host has let pass every error that
    escaped. *)
Definition alive (w : world) : bool :=
  forallb (fun e => match e with
                    | Unhandled err => goes_on err
                    | _ => true
                    end)
          (trace w).

(** A turn, a delivery of callbacks and a step of a process that may be
    gone. *)
Definition live_turn (task : M unit) (w : world) : world :=
  if alive w then turn task w else w.

Definition live_deliver (w : world) : world :=
  if alive w
  then fold_left (fun w j => live_turn (run_job j) w) (pending w)
         (mkWorld (trace w) [] (randoms w) (submissions w))
  else w.

Definition live_step (task : M unit) (w : world) : world :=
  live_deliver (live_turn task w).

(** The producer: the start line, the blocks that arrive before the state
    read settles, the continuation of the state read, the blocks that
    arrive after it.  Submissions started in one turn run one after the
    other; how they interleave at their [await]s is not modelled. *)
Definition producer (random_source : nat -> spec_float) (api : nat -> GearApi)
  (requests_queue : result (list (string * string)))
  (before after : list (list UserMessageSent)) : world :=
  let blocks :=
    fold_left
      (fun w block => live_step (onBlock random_source api block) w) in
  blocks after
    (live_step (Feeder.reconciliation random_source api requests_queue)
       (blocks before (live_step (console_log LogStarted) start))).

End Policy.

(** The beacon variant: the timer fires [ticks] times. *)
Definition beacon (fetchRandomValue : nat -> result (number * Random))
  (api : nat -> GearApi) (ticks : nat) : world :=
  fold_left (fun w n => step (Beacon.tick fetchRandomValue api n) w)
            (seq 0 ticks)
            (step (console_log LogStarted) start).

End Host.

(* ================================================================== *)
(** * Vocabulary of the statements *)
(* ================================================================== *)

Module Layout.

Definition byte_val (b : byte) : Z := Z.of_N (Byte.to_N b).

Definition byte_of (z : Z) : byte :=
  match Byte.of_N (Z.to_N (z mod 256)) with
  | Some b => b
  | None => x00
  end.

(** The [n] low bytes of [z], little-endian. *)
Fixpoint le_split (n : nat) (z : Z) : list byte :=
  match n with
  | O => []
  | S n' => byte_of z :: le_split n' (z / 256)
  end.

(** Modelled from the spec: the payload of a new-request notification, which
    the oracle program builds (the program is not among the sources): byte 0
    is the discriminant 0, bytes 1-16 hold the id, little-endian, bytes 17 to
    the end are the caller. *)
Definition new_request (id : Z) (caller_bytes : list byte) : list byte :=
  x00 :: le_split 16 id ++ caller_bytes.

(** The unsigned 64-bit integer in bytes 1-8 of a payload. *)
Definition id_field (payload : list byte) : Z :=
  le_combine (map byte_val (slice payload 1 9)).

(** Modelled from the spec: the encoding of an id into the 16 byte field, for
    a number that is a non-negative integer. *)
Definition encode_id (x : number) : option (list byte) :=
  match x with
  | Num z => if 0 <=? z then Some (le_split 16 z) else None
  | _ => None
  end.

(** The numbers the handler makes of raw bytes, one per byte. *)
Definition numbers_of (bs : list byte) : list number :=
  map (fun b => Num (byte_val b)) bs.

(** The submissions a trace shows, in order. *)
Fixpoint invocations (t : list event) : list OracleUpdateValue :=
  match t with
  | [] => []
  | Invoked item :: rest => item :: invocations rest
  | _ :: rest => invocations rest
  end.

Fixpoint log_lines (t : list event) : list log_line :=
  match t with
  | [] => []
  | ConsoleLog l :: rest => l :: log_lines rest
  | _ :: rest => log_lines rest
  end.

Fixpoint unhandled (t : list event) : list error :=
  match t with
  | [] => []
  | Unhandled e :: rest => e :: unhandled rest
  | _ :: rest => unhandled rest
  end.

Definition is_broadcast (e : event) : bool :=
  match e with
  | CalledMessageSend _ | CalledSignAndSend _ => true
  | _ => false
  end.

Definition is_gas_estimation (e : event) : bool :=
  match e with
  | CalledCalculateGas _ => true
  | _ => false
  end.

(** [n], for [0 <= n], rounded to a multiple of [2^k], to the nearest and
    ties to even: the rounding of [SpecFloat] written with integer
    arithmetic, for the proofs. *)
Definition round_at (k n : Z) : Z :=
  if k <=? 0 then n
  else
    let q := Z.shiftr n k in
    let r := Z.land n (Z.ones k) in
    let half := Z.shiftl 1 (k - 1) in
    let q' := if r <? half then q
              else if half <? r then q + 1
              else if Z.even q then q else q + 1 in
    Z.shiftl q' k.

(** A number is a non-negative integer below [bound]. *)
Definition below (bound : Z) (x : number) : Prop :=
  exists z, x = Num z /\ 0 <= z < bound.

End Layout.

Import Layout.

(* ================================================================== *)
(** * Concrete runs *)
(* ================================================================== *)

Module Scenario.

(** Collaborators that answer every call, the transaction going through. *)
Definition healthy : GearApi :=
  {| getWasmMetadata := Ok "meta";
     CreateType_create := fun _ _ => Ok "0x2a";
     decodeAddress := Ok "0xd4";
     calculateGas_handle := fun _ _ _ _ _ => Ok {| min_limit := 1000 |};
     message_send := fun m => Ok m;
     signAndSend := fun _ => Ok [ {| isError := false |} ] |}.

(** The same, except that the node reports the transaction as failed. *)
Definition acknowledgment_error : GearApi :=
  {| getWasmMetadata := Ok "meta";
     CreateType_create := fun _ _ => Ok "0x2a";
     decodeAddress := Ok "0xd4";
     calculateGas_handle := fun _ _ _ _ _ => Ok {| min_limit := 1000 |};
     message_send := fun m => Ok m;
     signAndSend := fun _ => Ok [ {| isError := true |} ] |}.

(** The same, except that gas estimation is refused. *)
Definition gas_failure : GearApi :=
  {| getWasmMetadata := Ok "meta";
     CreateType_create := fun _ _ => Ok "0x2a";
     decodeAddress := Ok "0xd4";
     calculateGas_handle := fun _ _ _ _ _ => Throw (Failure "gas");
     message_send := fun m => Ok m;
     signAndSend := fun _ => Ok [ {| isError := false |} ] |}.

Definition item7 : OracleUpdateValue := {| id := Num 7; value := Num 123 |}.

Definition message7 : Message :=
  {| destination := "0x"; payload := "0x2a"; gasLimit := 1000;
     msg_value := 0 |}.

Definition round9 : number * Random :=
  (Num 9, {| randomness := ["aa"; "bb"]; signature := "s";
             prevSignature := "p" |}).

(** [Math.random()] returning 0.5 every time. *)
Definition half : spec_float := S754_finite false 4503599627370496 (-53).

Definition caller32 : list byte := repeat xab 32.


(** A well-formed payload for the id [2^53 + 1]. *)
Definition unsafe_id : list byte := new_request (2 ^ 53 + 1) caller32.

(** A well-formed payload whose bytes 9-16 are not zero. *)
Definition high_bytes_set : list byte :=
  x00 :: le_split 8 42 ++ repeat xff 8 ++ caller32.

Definition beacon_down : nat -> result (number * Random) :=
  fun _ => Throw (Failure "beacon unreachable").

End Scenario.

(* ================================================================== *)
(** * Reading whole runs *)
(* ================================================================== *)

Module Reading.

Definition is_log (e : event) : bool :=
  match e with
  | ConsoleLog _ => true
  | _ => false
  end.

(** What a trace shows besides the console. *)
Definition actions (t : list event) : list event :=
  filter (fun e => negb (is_log e)) t.

(** The ids that the handler takes out of the events of one block: one for
    every event of the oracle whose payload decodes to a request, up to the
    first event on which the decoder throws. *)
Fixpoint block_ids (events : list Host.UserMessageSent) : list number :=
  match events with
  | [] => []
  | ev :: rest =>
      if String.eqb (Host.source ev) Feeder.ORACLE_ADDRESS
      then match Feeder.decodeRequest (Host.data ev) with
           | Ok (Some request) => Feeder.request_id request :: block_ids rest
           | Ok None => block_ids rest
           | Throw _ => []
           end
      else block_ids rest
  end.

(** The ids that the state read at startup yields. *)
Definition queue_ids (requests_queue : result (list (string * string)))
  : list number :=
  match requests_queue with
  | Ok queue => map (fun entry => parseInt (fst entry)) queue
  | Throw _ => []
  end.

(** The calls of [fetchRandomValue] that a trace shows. *)
Fixpoint fetches (t : list event) : nat :=
  match t with
  | [] => 0
  | CalledFetchRandomValue :: rest => S (fetches rest)
  | _ :: rest => fetches rest
  end.

(** The rounds submitted by the beacon variant, in order. *)
Fixpoint beacon_rounds (t : list event) : list number :=
  match t with
  | [] => []
  | InvokedBeacon round :: rest => round :: beacon_rounds rest
  | _ :: rest => beacon_rounds rest
  end.





(** Of what a whole run would add, [expected], the process has added a
    first part when it reaches [w'], and all of it if it is still there. *)
Definition upto {X : Type} (goes_on : error -> bool)
  (grows : world -> world -> list X -> Prop) (w w' : world)
  (expected : list X) : Prop :=
  exists done rest,
    expected = done ++ rest
    /\ grows w w' done
    /\ (Host.alive goes_on w' = true -> rest = []).

(** What the beacon's status callback leaves in the trace for one status
    event. *)
Definition beacon_status_entry (round : number) (random : Random)
  (ev : SubmittableResult) : event :=
  if isError ev then Unhandled (Error "Can't send tx")
  else ConsoleLog (LogSetRandom round random).

(** What the status callback leaves in the trace for one status event. *)
Definition status_entry (item : OracleUpdateValue) (ev : SubmittableResult)
  : event :=
  if isError ev then Unhandled (Error "Can't send tx")
  else ConsoleLog (LogUpdateValue (id item) (value item)).

(** What may follow the decimal digits of an id in the state read: nothing,
    or text that starts with a character that is neither a digit nor a
    letter, such as the separator of [1,234]. *)
Definition no_digit_follows (suffix : string) : bool :=
  match suffix with
  | EmptyString => true
  | String c _ => match digit_of c with
                  | None => true
                  | Some _ => false
                  end
  end.

(** A queue entry as the state read shows it: the id printed in decimal,
    followed by [suffix], and the caller. *)
Definition printed_entry (entry : Z * string * string) : string * string :=
  let '(n, suffix, caller) := entry in (toString n ++ suffix, caller)%string.

Definition read_entry (entry : Z * string * string) : Feeder.OracleQueueItem :=
  let '(n, _, caller) := entry in
  {| Feeder.item_id := Num n; Feeder.item_caller := caller |}.

(** From [w] to [w'] the process has started one submission for each of
    [ids], in order, each with the next random draw, and none besides. *)
Definition extends (random_source : nat -> spec_float) (w w' : world)
  (ids : list number) : Prop :=
  map id (invocations (trace w')) = map id (invocations (trace w)) ++ ids
  /\ map value (invocations (trace w'))
     = map value (invocations (trace w))
       ++ map (fun k => Feeder.getRandomNumber (random_source k) 9999999999999)
              (seq (randoms w) (List.length ids))
  /\ randoms w' = (randoms w + List.length ids)%nat
  /\ submissions w' = (submissions w + List.length ids)%nat.

(** Concrete events: a request for id 42 from the oracle, a message of
    another kind from the oracle, a request from another program. *)
Definition request42 : Host.UserMessageSent :=
  {| Host.source := "0x"; Host.dest := "0xd4";
     Host.data := new_request 42 Scenario.caller32 |}.

Definition other_kind : Host.UserMessageSent :=
  {| Host.source := "0x"; Host.dest := "0xd4"; Host.data := [x01; x02] |}.

Definition foreign : Host.UserMessageSent :=
  {| Host.source := "0xabc"; Host.dest := "0xd4";
     Host.data := new_request 42 Scenario.caller32 |}.


Definition cut_payload : Host.UserMessageSent :=
  {| Host.source := "0x"; Host.dest := "0xd4";
     Host.data := [x00; x2a; x00; x00] |}.

End Reading.

Import Reading.

(* ================================================================== *)
(** * IEEE 754 arithmetic, in integers *)
(* ================================================================== *)

Section IEEE754.

Local Open Scope Z_scope.

Lemma digits2_pos_size (p : positive) : digits2_pos p = Pos.size p.
Proof. induction p; cbn; rewrite ?IHp; reflexivity. Qed.

Lemma digits2_log2 (p : positive) : Zpos (digits2_pos p) = Z.log2 (Zpos p) + 1.
Proof.
  rewrite digits2_pos_size. destruct p; cbn [Z.log2 Pos.size]; lia.
Qed.

Lemma iter_pos_nat {A} (f : A -> A) (p : positive) (x : A) :
  iter_pos f p x = Nat.iter (Pos.to_nat p) f x.
Proof.
  revert x. induction p as [p IH|p IH|]; intro x; cbn [iter_pos].
  - rewrite !IH, Pos2Nat.inj_xI.
    replace (S (2 * Pos.to_nat p)) with (Pos.to_nat p + S (Pos.to_nat p))%nat by lia.
    rewrite Nat.iter_add, Nat.iter_succ_r. reflexivity.
  - rewrite !IH, Pos2Nat.inj_xO.
    replace (2 * Pos.to_nat p)%nat with (Pos.to_nat p + Pos.to_nat p)%nat by lia.
    rewrite Nat.iter_add. reflexivity.
  - reflexivity.
Qed.

(** One step of the shift, on a non-negative significand. *)
Lemma shr_1_spec (m : Z) (r s : bool) :
  0 <= m ->
  shr_1 (Build_shr_record m r s) = Build_shr_record (m / 2) (Z.odd m) (r || s).
Proof.
  intro H. destruct m as [|p|p]; [ reflexivity | | lia ].
  destruct p; cbn [shr_1].
  - rewrite Pos2Z.inj_xI. f_equal. 
    rewrite Z.add_comm, Z.mul_comm, Z.div_add by lia. reflexivity.
  - rewrite Pos2Z.inj_xO. f_equal. rewrite Z.mul_comm, Z.div_mul by lia. reflexivity.
  - reflexivity.
Qed.

(** [n] steps of the shift from an exact significand: the quotient, the
    bit just below it, and whether anything lies below that bit. *)
Lemma shr_iter_spec (m : Z) (n : nat) :
  0 <= m ->
  Nat.iter (S n) shr_1 (Build_shr_record m false false)
  = Build_shr_record (m / 2 ^ Z.of_nat (S n)) (Z.testbit m (Z.of_nat n))
      (negb (m mod 2 ^ Z.of_nat n =? 0)).
Proof.
  intro Hm. induction n as [|n IH].
  - cbn [Nat.iter]. rewrite shr_1_spec by assumption.
    change (2 ^ Z.of_nat 1) with 2. change (2 ^ Z.of_nat 0) with 1.
    rewrite Z.mod_1_r. rewrite Z.bit0_odd. reflexivity.
  - rewrite Nat.iter_succ, IH.
    assert (P : 0 < 2 ^ Z.of_nat (S n)) by (apply Z.pow_pos_nonneg; lia).
    rewrite shr_1_spec by (apply Z.div_pos; lia).
    f_equal.
    + rewrite Z.div_div by lia. f_equal.
      rewrite (Nat2Z.inj_succ (S n)), Z.pow_succ_r by lia. lia.
    + rewrite Z.testbit_odd, Z.shiftr_div_pow2 by lia. reflexivity.
    + rewrite (Nat2Z.inj_succ n), Z.pow_succ_r by lia.
      assert (Pn : 0 < 2 ^ Z.of_nat n) by (apply Z.pow_pos_nonneg; lia).
      rewrite (Z.mul_comm 2), Z.rem_mul_r by lia.
      rewrite <- Z.testbit_spec' by lia.
      pose proof (Z.mod_pos_bound m (2 ^ Z.of_nat n) Pn).
      destruct (Z.testbit m (Z.of_nat n)); cbn [Z.b2z orb].
      * symmetry. apply negb_true_iff, Z.eqb_neq. lia.
      * rewrite Z.mul_0_r, Z.add_0_r. reflexivity.
Qed.

(** Rounding what the shift left, as arithmetic on integers. *)
Lemma round_shifted (m : Z) (n : nat) :
  0 <= m ->
  let mrs := Nat.iter (S n) shr_1 (Build_shr_record m false false) in
  Z.shiftl (round_nearest_even (shr_m mrs) (loc_of_shr_record mrs))
           (Z.of_nat (S n))
  = round_at (Z.of_nat (S n)) m.
Proof.
  intros Hm mrs. subst mrs. rewrite shr_iter_spec by assumption.
  cbn [shr_m]. unfold round_at.
  replace (Z.of_nat (S n) <=? 0) with false by (symmetry; apply Z.leb_gt; lia).
  rewrite Z.shiftr_div_pow2, Z.land_ones by lia.
  rewrite (Z.shiftl_mul_pow2 1), Z.mul_1_l by lia.
  replace (Z.of_nat (S n) - 1) with (Z.of_nat n) by lia.
  f_equal.
  assert (Pn : 0 < 2 ^ Z.of_nat n) by (apply Z.pow_pos_nonneg; lia).
  assert (E : m mod 2 ^ Z.of_nat (S n)
              = m mod 2 ^ Z.of_nat n
                + 2 ^ Z.of_nat n * Z.b2z (Z.testbit m (Z.of_nat n))).
  { rewrite Nat2Z.inj_succ, Z.pow_succ_r by lia.
    rewrite (Z.mul_comm 2), Z.rem_mul_r by lia.
    rewrite <- Z.testbit_spec' by lia. reflexivity. }
  rewrite E.
  pose proof (Z.mod_pos_bound m (2 ^ Z.of_nat n) Pn) as Hlow.
  destruct (Z.testbit m (Z.of_nat n)); cbn [Z.b2z];
    destruct (Z.eqb_spec (m mod 2 ^ Z.of_nat n) 0) as [E0 | E0];
    cbn [negb loc_of_shr_record round_nearest_even].
  - rewrite E0, Z.add_0_l, Z.mul_1_r, Z.ltb_irrefl. reflexivity.
  - rewrite Z.mul_1_r.
    replace (_ <? 2 ^ Z.of_nat n) with false by (symmetry; apply Z.ltb_ge; lia).
    replace (2 ^ Z.of_nat n <? _) with true by (symmetry; apply Z.ltb_lt; lia).
    reflexivity.
  - rewrite Z.mul_0_r, Z.add_0_r.
    replace (_ <? 2 ^ Z.of_nat n) with true by (symmetry; apply Z.ltb_lt; lia).
    reflexivity.
  - rewrite Z.mul_0_r, Z.add_0_r.
    replace (_ <? 2 ^ Z.of_nat n) with true by (symmetry; apply Z.ltb_lt; lia).
    reflexivity.
Qed.

(** The shift of [shr], for a positive amount. *)
Lemma shr_exact_start (m e : Z) (k : positive) :
  shr (Build_shr_record m false false) e (Zpos k)
  = (Nat.iter (Pos.to_nat k) shr_1 (Build_shr_record m false false),
     e + Zpos k).
Proof. cbn [shr]. rewrite iter_pos_nat. reflexivity. Qed.

Lemma Zdigits2_log2 (M : Z) : 0 < M -> Zdigits2 M = Z.log2 M + 1.
Proof.
  destruct M as [|p|p]; try lia. intros _. cbn [Zdigits2]. apply digits2_log2.
Qed.

Lemma lt_pow_digits (M : Z) : 0 < M -> M < 2 ^ Zdigits2 M.
Proof.
  intro H. rewrite Zdigits2_log2 by assumption.
  apply Z.log2_spec. assumption.
Qed.

Lemma digits_le (M d : Z) : 0 < M -> 0 <= d -> M < 2 ^ d -> Zdigits2 M <= d.
Proof.
  intros HM Hd Hlt. rewrite Zdigits2_log2 by assumption.
  assert (Z.log2 M < d) by (apply Z.log2_lt_pow2; assumption). lia.
Qed.

(** First stage of [binary_round_aux]: the significand is cut at the
    exponent of the format and rounded. *)
Lemma first_stage (M E : Z) :
  0 < M ->
  let k := fexp 53 1024 (Zdigits2 M + E) - E in
  exists mrs,
    shr_fexp 53 1024 M E loc_Exact = (mrs, E + Z.max k 0)
    /\ round_nearest_even (shr_m mrs) (loc_of_shr_record mrs) * 2 ^ Z.max k 0
       = round_at k M.
Proof.
  intros HM k. unfold shr_fexp. fold k. cbn [shr_record_of_loc].
  destruct k as [|p|p] eqn:Ek.
  - eexists. split; [ cbn [shr]; f_equal; lia | ].
    cbn. lia.
  - rewrite shr_exact_start. eexists. split; [ f_equal; lia | ].
    destruct (Pos2Nat.is_succ p) as (n & En). rewrite En.
    pose proof (round_shifted M n ltac:(lia)) as R. cbv zeta in R.
    rewrite Z.shiftl_mul_pow2 in R by lia.
    replace (Z.max (Zpos p) 0) with (Z.of_nat (S n)) by lia.
    replace (Zpos p) with (Z.of_nat (S n)) by lia. exact R.
  - eexists. split; [ cbn [shr]; f_equal; lia | ].
    cbn. lia.
Qed.

(** What [binary_round_aux] returns for a positive significand that has
    digits enough and does not overflow: the rounded significand at the
    exponent of the format, possibly renormalised by one bit. *)
Lemma binary_round_aux_spec (sx : bool) (M E : Z) :
  0 < M ->
  let d := Zdigits2 M in
  let k := fexp 53 1024 (d + E) - E in
  d + E <= 1023 -> E <= 970 -> -1074 <= E + Z.max k 0 ->
  let Q := round_at k M / 2 ^ Z.max k 0 in
  (Q = 0 /\ binary_round_aux 53 1024 sx M E loc_Exact = S754_zero sx)
  \/ exists m e, binary_round_aux 53 1024 sx M E loc_Exact = S754_finite sx m e
                 /\ E + Z.max k 0 <= e
                 /\ Zpos m * 2 ^ (e - (E + Z.max k 0)) = Q.
Proof.
  intros HM d k Hov HE Hmin Q.
  destruct (first_stage M E HM) as (mrs & E1 & R). fold d k in E1, R.
  set (K := Z.max k 0) in *.
  set (m1 := round_nearest_even (shr_m mrs) (loc_of_shr_record mrs)) in *.
  assert (PK : 0 < 2 ^ K) by (apply Z.pow_pos_nonneg; lia).
  assert (EQ : Q = m1) by (unfold Q; rewrite <- R; apply Z.div_mul; lia).
  assert (Hkd : d - 53 <= k) by (unfold k, fexp, emin; lia).
  assert (Hd : 0 < d) by (unfold d; rewrite Zdigits2_log2 by lia;
                          pose proof (Z.log2_nonneg M); lia).
  (* the rounded significand has at most 53 bits, or is 2^53 *)
  assert (Hm1 : 0 <= m1 <= 2 ^ 53).
  { pose proof (lt_pow_digits M HM) as Hlt. fold d in Hlt.
    destruct (Z.le_gt_cases k 0) as [Hk | Hk].
    - replace K with 0 in * by lia. unfold round_at in R.
      replace (k <=? 0) with true in R by (symmetry; apply Z.leb_le; lia).
      rewrite Z.pow_0_r, Z.mul_1_r in R. rewrite R.
      assert (2 ^ d <= 2 ^ 53) by (apply Z.pow_le_mono_r; lia). lia.
    - replace K with k in * by lia.
      unfold round_at in R.
      replace (k <=? 0) with false in R by (symmetry; apply Z.leb_gt; lia).
      rewrite Z.shiftl_mul_pow2 in R by lia.
      apply Z.mul_cancel_r in R; [ | lia ].
      rewrite Z.shiftr_div_pow2 in R by lia.
      assert (Hq : 0 <= M / 2 ^ k) by (apply Z.div_pos; lia).
      assert (Hq2 : M / 2 ^ k < 2 ^ 53).
      { apply Z.div_lt_upper_bound; [ lia | ].
        rewrite <- Z.pow_add_r by lia.
        apply Z.lt_le_trans with (2 ^ d); [ assumption | ].
        apply Z.pow_le_mono_r; lia. }
      rewrite R.
      repeat match goal with |- context [if ?c then _ else _] => destruct c end;
        lia. }
  unfold binary_round_aux. rewrite E1. fold m1.
  assert (He' : fexp 53 1024 (Zdigits2 m1 + (E + K)) - (E + K) <= 1).
  { destruct (Z.eq_dec m1 0) as [-> | Hn0].
    - cbn [Zdigits2]. unfold fexp, emin. lia.
    - assert (Zdigits2 m1 <= 54).
      { apply digits_le; [ lia | lia | ].
        apply Z.le_lt_trans with (2 ^ 53); [ lia | reflexivity ]. }
      unfold fexp, emin. lia. }
  destruct (Z.eq_dec m1 0) as [E0 | Hn0].
  - left. split; [ lia | ].
    rewrite E0. unfold shr_fexp. cbn [Zdigits2 shr_record_of_loc].
    assert (Hk2 : fexp 53 1024 (0 + (E + K)) - (E + K) <= 0)
      by (unfold fexp, emin; lia).
    destruct (fexp 53 1024 (0 + (E + K)) - (E + K)) as [|p|p]; try lia;
      reflexivity.
  - right.
    destruct (Z.eq_dec m1 (2 ^ 53)) as [E53 | Hn53].
    + (* the carry: one more bit to drop *)
      rewrite E53. unfold shr_fexp.
      change (Zdigits2 (2 ^ 53)) with 54.
      replace (fexp 53 1024 (54 + (E + K)) - (E + K)) with 1
        by (unfold fexp, emin; lia).
      cbn [shr_record_of_loc shr iter_pos shr_1 shr_m].
      change (2 ^ 53) with 9007199254740992. cbn [shr_1 shr_m].
      replace (E + K + 1 <=? 1024 - 53) with true
        by (symmetry; apply Z.leb_le; unfold K, k, fexp, emin in *; lia).
      eexists _, _. split; [ reflexivity | ]. split; [ lia | ].
      replace (E + K + 1 - (E + K)) with 1 by lia. rewrite EQ, E53.
      reflexivity.
    + assert (Hd1 : Zdigits2 m1 <= 53).
      { apply digits_le; lia. }
      unfold shr_fexp. cbn [shr_record_of_loc].
      assert (Hk2 : fexp 53 1024 (Zdigits2 m1 + (E + K)) - (E + K) <= 0)
        by (unfold fexp, emin; lia).
      destruct (fexp 53 1024 (Zdigits2 m1 + (E + K)) - (E + K)) as [|p|p]; try lia;
        cbn [shr shr_m];
        (destruct m1 as [|pm|pm]; try lia;
         replace (E + K <=? 1024 - 53) with true
           by (symmetry; apply Z.leb_le; unfold K, k, fexp, emin in *; lia);
         eexists _, _; split; [ reflexivity | ]; split; [ lia | ];
         rewrite Z.sub_diag, Z.pow_0_r, EQ; lia).
Qed.

(** The value of the result, in one equation. *)
Lemma binary_round_aux_value (sx : bool) (M E : Z) :
  0 < M ->
  let k := fexp 53 1024 (Zdigits2 M + E) - E in
  Zdigits2 M + E <= 1023 -> E <= 970 ->
  (round_at k M = 0 /\ binary_round_aux 53 1024 sx M E loc_Exact = S754_zero sx)
  \/ exists m e, binary_round_aux 53 1024 sx M E loc_Exact = S754_finite sx m e
                 /\ E <= e /\ Zpos m * 2 ^ (e - E) = round_at k M.
Proof.
  intros HM k H1 H2.
  assert (Hmin : -1074 <= E + Z.max k 0) by (unfold k, fexp, emin; lia).
  destruct (first_stage M E HM) as (mrs & _ & R). fold k in R.
  assert (PK : 0 < 2 ^ Z.max k 0) by (apply Z.pow_pos_nonneg; lia).
  pose proof (binary_round_aux_spec sx M E HM H1 H2 Hmin) as S.
  cbv zeta in S. fold k in S.
  destruct S as [(Q0 & ->) | (m & e & -> & He & Hv)].
  - left. split; [ | reflexivity ].
    rewrite <- R in *. rewrite Z.div_mul in Q0 by lia. rewrite Q0. lia.
  - right. exists m, e. split; [ reflexivity | ]. split; [ lia | ].
    rewrite <- R in *. rewrite Z.div_mul in Hv by lia. rewrite <- Hv.
    rewrite <- Z.mul_assoc, <- Z.pow_add_r by lia. do 2 f_equal. lia.
Qed.

(** [Z.shiftl a e] is the floor of [a * 2^e], whatever the sign of [e]. *)
Lemma shiftl_floor_eq (a e c t : Z) :
  0 <= c -> 0 <= e + c -> a * 2 ^ (e + c) = t * 2 ^ c -> Z.shiftl a e = t.
Proof.
  intros Hc Hec H.
  assert (Pc : 0 < 2 ^ c) by (apply Z.pow_pos_nonneg; lia).
  destruct (Z.le_gt_cases 0 e) as [He | He].
  - rewrite Z.shiftl_mul_pow2 by lia.
    rewrite Z.pow_add_r in H by lia.
    apply (Z.mul_cancel_r _ _ (2 ^ c)); [ lia | ]. rewrite <- H. ring.
  - rewrite Z.shiftl_div_pow2 by lia.
    assert (Pe : 0 < 2 ^ (- e)) by (apply Z.pow_pos_nonneg; lia).
    replace c with ((e + c) + - e) in H at 2 by lia.
    rewrite (Z.pow_add_r 2 (e + c) (- e)) in H by lia.
    assert (Pq : 0 < 2 ^ (e + c)) by (apply Z.pow_pos_nonneg; lia).
    assert (Ea : a = t * 2 ^ (- e)).
    { apply (Z.mul_cancel_r _ _ (2 ^ (e + c))); [ lia | ]. rewrite H. ring. }
    subst a. apply Z.div_mul. lia.
Qed.

Lemma shiftl_floor_lt (a e c t : Z) :
  0 <= a -> 0 <= c -> 0 <= e + c -> a * 2 ^ (e + c) < t * 2 ^ c ->
  0 <= Z.shiftl a e < t.
Proof.
  intros Ha Hc Hec H.
  assert (Pc : 0 < 2 ^ c) by (apply Z.pow_pos_nonneg; lia).
  destruct (Z.le_gt_cases 0 e) as [He | He].
  - rewrite Z.shiftl_mul_pow2 by lia.
    assert (Pe : 0 < 2 ^ e) by (apply Z.pow_pos_nonneg; lia).
    rewrite Z.pow_add_r in H by lia. nia.
  - rewrite Z.shiftl_div_pow2 by lia.
    assert (Pe : 0 < 2 ^ (- e)) by (apply Z.pow_pos_nonneg; lia).
    replace c with ((e + c) + - e) in H at 2 by lia.
    rewrite (Z.pow_add_r 2 (e + c) (- e)) in H by lia.
    assert (Pq : 0 < 2 ^ (e + c)) by (apply Z.pow_pos_nonneg; lia).
    split; [ apply Z.div_pos; lia | ].
    apply Z.div_lt_upper_bound; [ lia | nia ].
Qed.

Lemma round_at_spec (k n : Z) :
  0 < k -> 0 <= n ->
  exists q, round_at k n = q * 2 ^ k
            /\ n / 2 ^ k <= q <= n / 2 ^ k + 1
            /\ (q = n / 2 ^ k + 1 -> 2 ^ (k - 1) <= n mod 2 ^ k).
Proof.
  intros Hk Hn. unfold round_at.
  replace (k <=? 0) with false by (symmetry; apply Z.leb_gt; assumption).
  rewrite Z.shiftr_div_pow2, Z.land_ones by lia.
  rewrite (Z.shiftl_mul_pow2 1), Z.mul_1_l by lia.
  set (q := n / 2 ^ k). set (r := n mod 2 ^ k). set (h := 2 ^ (k - 1)).
  destruct (Z.ltb_spec r h) as [Hlt | Hge].
  - exists q. rewrite Z.shiftl_mul_pow2 by lia. repeat split; lia.
  - destruct (Z.ltb_spec h r) as [Hgt | Hle].
    + exists (q + 1). rewrite Z.shiftl_mul_pow2 by lia. repeat split; lia.
    + destruct (Z.even q).
      * exists q. rewrite Z.shiftl_mul_pow2 by lia. repeat split; lia.
      * exists (q + 1). rewrite Z.shiftl_mul_pow2 by lia. repeat split; lia.
Qed.

Lemma round_at_exact (k n : Z) :
  0 <= n -> n mod 2 ^ k = 0 -> round_at k n = n.
Proof.
  intros Hn Hmod. unfold round_at.
  destruct (Z.leb_spec k 0) as [Hk | Hk]; [ reflexivity | ].
  rewrite Z.shiftr_div_pow2, Z.land_ones by lia.
  rewrite (Z.shiftl_mul_pow2 1), Z.mul_1_l by lia.
  assert (Ph : 0 < 2 ^ (k - 1)) by (apply Z.pow_pos_nonneg; lia).
  assert (Pk : 0 < 2 ^ k) by (apply Z.pow_pos_nonneg; lia).
  rewrite Hmod.
  replace (0 <? 2 ^ (k - 1)) with true by (symmetry; apply Z.ltb_lt; lia).
  rewrite Z.shiftl_mul_pow2 by lia.
  pose proof (Z.div_mod n (2 ^ k) ltac:(lia)). lia.
Qed.

Lemma rounded_product_below (B e m s : Z) :
  1 <= e <= 53 -> 2 ^ (e - 1) < B < 2 ^ e ->
  0 < m < 2 ^ 53 -> 0 <= s -> m < 2 ^ s ->
  let n := m * B in
  0 < Z.log2 n - 52 ->
  round_at (Z.log2 n - 52) n < B * 2 ^ s.
Proof.
  intros He HB Hm Hs Hms n Hk.
  assert (Hn : 0 < n) by (unfold n; nia).
  set (k := Z.log2 n - 52) in *.
  assert (P2s : 0 < 2 ^ s) by (apply Z.pow_pos_nonneg; lia).
  assert (P2e : 0 < 2 ^ e) by (apply Z.pow_pos_nonneg; lia).
  assert (Hk_e : k <= e).
  { assert (Z.log2 n < 53 + e); [ | lia ].
    apply Z.log2_lt_pow2; [ assumption | ].
    rewrite Z.pow_add_r by lia. unfold n. nia. }
  assert (Hk_s : k + (53 - e) <= s).
  { assert (Z.log2 n < s + e); [ | lia ].
    apply Z.log2_lt_pow2; [ assumption | ].
    rewrite Z.pow_add_r by lia. unfold n. nia. }
  destruct (round_at_spec k n Hk ltac:(lia)) as (q & -> & Hq & Hup).
  set (j := s - k).
  assert (Hj : 0 <= j) by lia.
  assert (Es : 2 ^ s = 2 ^ j * 2 ^ k).
  { rewrite <- Z.pow_add_r by lia. f_equal. lia. }
  assert (P2k : 0 < 2 ^ k) by (apply Z.pow_pos_nonneg; lia).
  assert (P2j : 0 < 2 ^ j) by (apply Z.pow_pos_nonneg; lia).
  assert (Eh : 2 ^ k = 2 * 2 ^ (k - 1)).
  { rewrite <- Z.pow_succ_r by lia. f_equal. lia. }
  assert (Hh : 2 ^ (k - 1) <= 2 ^ (e - 1)) by (apply Z.pow_le_mono_r; lia).
  pose proof (Z.div_mod n (2 ^ k) ltac:(lia)) as Hdm.
  pose proof (Z.mod_pos_bound n (2 ^ k) P2k) as Hmod.
  rewrite Es.
  assert (Hnb : n <= B * (2 ^ j * 2 ^ k) - B) by (unfold n; nia).
  assert (q < B * 2 ^ j); [ | nia ].
  assert (Hqd : n / 2 ^ k < B * 2 ^ j).
  { apply Z.div_lt_upper_bound; [ assumption | nia ]. }
  destruct (Z.eq_dec q (n / 2 ^ k + 1)) as [E | E]; [ | lia ].
  specialize (Hup E).
  destruct (Z.eq_dec (n / 2 ^ k + 1) (B * 2 ^ j)) as [E2 | E2]; [ | lia ].
  exfalso. nia.
Qed.

(** Integers below [2^53] are doubles. *)
Lemma to_number_small (n : Z) : 0 <= n < two53 -> to_number n = Num n.
Proof.
  unfold two53. intros [H0 H1]. unfold to_number, binary64, binary_normalize.
  destruct n as [|p|p]; [ reflexivity | | lia ].
  unfold binary_round.
  pose proof (digits2_log2 p) as Hd.
  assert (Hlog : Z.log2 (Zpos p) < 53) by (apply Z.log2_lt_pow2; lia).
  pose proof (Z.log2_nonneg (Zpos p)) as Hlog0.
  assert (Ef : fexp 53 1024 (Zpos (digits2_pos p) + 0) = Z.log2 (Zpos p) - 52)
    by (unfold fexp, emin; lia).
  rewrite Ef. unfold shl_align.
  destruct (Z.log2 (Zpos p) - 52 - 0) as [|j|j] eqn:Ej; [ | lia | ].
  - (* 53 bits already *)
    destruct (binary_round_aux_value false (Zpos p) 0 ltac:(lia))
      as [(R0 & _) | (m & e & -> & He & Hv)].
    + cbn [Zdigits2]. lia.
    + lia.
    + exfalso. cbn [Zdigits2] in R0. rewrite Ef in R0.
      replace (Z.log2 (Zpos p) - 52 - 0) with 0 in R0 by lia.
      cbn in R0. lia.
    + cbn [Zdigits2] in Hv. rewrite Ef in Hv.
      replace (Z.log2 (Zpos p) - 52 - 0) with 0 in Hv by lia.
      change (round_at 0 (Zpos p)) with (Zpos p) in Hv.
      cbn [Math_floor cond_Zopp]. f_equal.
      apply (shiftl_floor_eq _ _ 0); [ lia | lia | ].
      rewrite Z.add_0_r, Z.sub_0_r in *. lia.
  - (* fewer bits: the significand is shifted up to 53 bits *)
    set (E := Z.log2 (Zpos p) - 52) in *.
    assert (EM : Zpos (Pos.iter xO p j) = Zpos p * 2 ^ Zpos j).
    { change (Pos.iter xO p j) with (Zpower.shift_pos j p).
      rewrite Zpower.shift_pos_correct, Z.pow_pos_fold. lia. }
    assert (PJ : 0 < 2 ^ Zpos j) by (apply Z.pow_pos_nonneg; lia).
    assert (DM : Zdigits2 (Zpos (Pos.iter xO p j)) = 53).
    { rewrite Zdigits2_log2 by lia. rewrite EM, Z.log2_mul_pow2 by lia. lia. }
    assert (EK : fexp 53 1024 (Zdigits2 (Zpos (Pos.iter xO p j)) + E) - E = 0)
      by (rewrite DM; unfold fexp, emin; lia).
    destruct (binary_round_aux_value false (Zpos (Pos.iter xO p j)) E
                ltac:(lia))
      as [(R0 & _) | (m & e & -> & He & Hv)].
    + rewrite DM. lia.
    + lia.
    + exfalso. rewrite EK in R0. cbn in R0. lia.
    + rewrite EK in Hv.
      change (round_at 0 (Zpos (Pos.iter xO p j))) with (Zpos (Pos.iter xO p j)) in Hv.
      cbn [Math_floor cond_Zopp]. f_equal.
      apply (shiftl_floor_eq _ _ (Zpos j)); [ lia | lia | ].
      replace (e + Zpos j) with (e - E) by lia. rewrite Hv, EM. reflexivity.
Qed.

(** Beyond [2^53] integers are rounded, beyond the largest double they
    overflow. *)
Example to_number_unsafe : to_number (2 ^ 53 + 1) = Num (2 ^ 53).
Proof. vm_compute. reflexivity. Qed.

Example to_number_tie_to_even : to_number (2 ^ 53 + 3) = Num (2 ^ 53 + 4).
Proof. vm_compute. reflexivity. Qed.

Example to_number_negative : to_number (- 7) = Num (- 7).
Proof. vm_compute. reflexivity. Qed.

Example to_number_overflow : to_number (2 ^ 1024) = Infinity false.
Proof. vm_compute. reflexivity. Qed.

Lemma binary64_bound :
  binary64 9999999999999 = S754_finite false 5119999999999488 (-9).
Proof. vm_compute. reflexivity. Qed.

(** [Math.floor(Math.random() * 9999999999999)]. *)
Lemma getRandomNumber_range (r : spec_float) :
  unit_double r = true ->
  below 9999999999999 (Feeder.getRandomNumber r 9999999999999).
Proof.
  unfold Feeder.getRandomNumber. rewrite binary64_bound.
  destruct r as [[|]|[|]| |[|] m e]; cbn [unit_double]; try discriminate.
  - intros _. exists 0. split; [ reflexivity | lia ].
  - intro H. apply andb_prop in H. destruct H as [Hb Hlt].
    unfold bounded, canonical_mantissa in Hb.
    apply andb_prop in Hb. destruct Hb as [Hc He].
    apply Z.eqb_eq in Hc. apply Z.leb_le in He. apply Z.ltb_lt in Hlt.
    (* the random double is [m * 2^-s], with [m < 2^s] *)
    assert (Hneg : e < 0).
    { destruct (Z.le_gt_cases 0 e) as [H0 | H0]; [ | assumption ].
      exfalso. destruct (- e) as [|q|q] eqn:Eq; try lia.
      cbn in Hlt. lia. }
    set (s := - e) in *.
    assert (Hs : 0 < s <= 1074) by (unfold fexp, emin in Hc; lia).
    assert (Hm53 : Zpos m < 2 ^ 53).
    { assert (Zdigits2 (Zpos m) <= 53)
        by (cbn [Zdigits2]; unfold fexp, emin in Hc; lia).
      apply Z.lt_le_trans with (2 ^ Zdigits2 (Zpos m));
        [ apply lt_pow_digits; lia | apply Z.pow_le_mono_r; lia ]. }
    cbn [SFmul xorb].
    set (B := 5119999999999488).
    set (M := Zpos (m * 5119999999999488)).
    assert (EM : M = Zpos m * B) by reflexivity.
    assert (P2s : 0 < 2 ^ s) by (apply Z.pow_pos_nonneg; lia).
    assert (HM : 0 < M) by reflexivity.
    assert (HMlt : M < B * 2 ^ s) by (rewrite EM; unfold B; nia).
    assert (Hdig : Zdigits2 M <= 106).
    { apply digits_le; [ lia | lia | ].
      rewrite EM. change (2 ^ 106) with (2 ^ 53 * 2 ^ 53). unfold B.
      change (2 ^ 53) with 9007199254740992 in *. nia. }
    set (E := e + -9).
    set (k := fexp 53 1024 (Zdigits2 M + E) - E).
    (* the rounded product stays below the bound *)
    assert (Hround : round_at k M < B * 2 ^ s).
    { destruct (Z.le_gt_cases k 0) as [Hk | Hk].
      - unfold round_at.
        replace (k <=? 0) with true by (symmetry; apply Z.leb_le; lia).
        assumption.
      - destruct (Z.eq_dec k (Z.log2 M - 52)) as [Ek | Ek].
        + rewrite Ek, EM.
          apply (rounded_product_below B 53 (Zpos m) s);
            [ lia | split; reflexivity | lia | lia | lia | ].
          rewrite <- EM. lia.
        + (* subnormal: only bits of the factor [2^9] are dropped *)
          assert (Hk9 : k <= 9).
          { unfold k, fexp, emin, E in *.
            rewrite (Zdigits2_log2 M HM) in *. lia. }
          rewrite round_at_exact; [ assumption | lia | ].
          rewrite EM. unfold B.
          replace 5119999999999488 with (9999999999999 * 2 ^ (9 - k) * 2 ^ k).
          * rewrite Z.mul_assoc. apply Z.mod_mul.
            apply Z.pow_nonzero; lia.
          * rewrite <- Z.mul_assoc, <- Z.pow_add_r by lia.
            replace (9 - k + k) with 9 by lia. reflexivity. }
    destruct (binary_round_aux_value false M E HM)
      as [(_ & ->) | (m' & e' & -> & He' & Hv)].
    + unfold E. lia.
    + unfold E. lia.
    + exists 0. split; [ reflexivity | lia ].
    + fold k in Hv. cbn [Math_floor cond_Zopp].
      eexists. split; [ reflexivity | ].
      apply (shiftl_floor_lt _ _ (s + 9)); [ lia | lia | unfold E in He'; lia | ].
      replace (e' + (s + 9)) with (e' - E) by (unfold E, s; lia).
      rewrite Hv. rewrite Z.pow_add_r by lia.
      change (2 ^ 9) with 512. unfold B in Hround. lia.
Qed.

End IEEE754.

(* ================================================================== *)
(** * Facts about the host language *)
(* ================================================================== *)

Section Printing_and_parsing.

Local Open Scope Z_scope.

(** Evaluates [digit_of] at a literal character and the test against the
    radix that follows. *)
Ltac eval_digit :=
  cbn [parse_digits];
  match goal with
  | |- context [digit_of ?c] =>
      let v := eval vm_compute in (digit_of c) in
      change (digit_of c) with v; cbv beta iota
  end;
  match goal with
  | |- context [?k <? ?R] =>
      let v := eval vm_compute in (k <? R) in
      change (k <? R) with v; cbv beta iota
  end.

Lemma parse_digits_acc (d : uint) (acc : positive) :
  parse_digits 10 (NilEmpty.string_of_uint d) (Some (Zpos acc))
  = Some (Zpos (Pos.of_uint_acc d acc)).
Proof.
  revert acc.
  induction d; intro acc; cbn [NilEmpty.string_of_uint Pos.of_uint_acc];
    [ reflexivity | .. ];
    (eval_digit; rewrite <- IHd; f_equal; f_equal; lia).
Qed.

Lemma parse_digits_zero (d : uint) :
  parse_digits 10 (NilEmpty.string_of_uint d) (Some 0)
  = Some (Z.of_N (Pos.of_uint d)).
Proof.
  induction d; cbn [NilEmpty.string_of_uint Pos.of_uint];
    [ reflexivity | eval_digit; exact IHd | .. ];
    (eval_digit; apply parse_digits_acc).
Qed.

Lemma parse_digits_none (d : uint) :
  d <> Nil ->
  parse_digits 10 (NilEmpty.string_of_uint d) None
  = parse_digits 10 (NilEmpty.string_of_uint d) (Some 0).
Proof.
  destruct d; intro H; [ congruence | reflexivity .. ].
Qed.

(** A string of decimal digits has no white space, sign or [0x] in front:
    [parseInt] reads all of it. *)
Lemma parseInt_digits (d : uint) :
  d <> Nil ->
  parseInt (NilEmpty.string_of_uint d) = to_number (Z.of_N (N.of_uint d)).
Proof.
  intro Hd.
  assert (E : parseInt (NilEmpty.string_of_uint d)
              = match parse_digits 10 (NilEmpty.string_of_uint d) None with
                | None => NaN
                | Some m => to_number m
                end).
  { destruct d as [|d|d|d|d|d|d|d|d|d|d]; try congruence;
      try reflexivity.
    destruct d; reflexivity. }
  rewrite E, parse_digits_none, parse_digits_zero by assumption.
  reflexivity.
Qed.

(** Printing a non-negative integer and parsing it back converts it to a
    double. *)
Lemma parseInt_toString (n : Z) :
  0 <= n -> parseInt (toString n) = to_number n.
Proof.
  intro Hn. unfold toString, NilZero.string_of_uint.
  assert (Hnil : N.to_uint (Z.to_N n) <> Nil).
  { destruct (Z.to_N n); cbn; [ discriminate | apply Unsigned.to_uint_nonnil ]. }
  destruct (N.to_uint (Z.to_N n)) eqn:E; try congruence;
    rewrite <- E; rewrite parseInt_digits by (rewrite E; discriminate);
    rewrite DecimalN.Unsigned.of_to, Z2N.id by assumption; reflexivity.
Qed.

Lemma byte_val_range (b : byte) : 0 <= byte_val b < 256.
Proof.
  unfold byte_val. pose proof (Byte.to_N_bounded b). lia.
Qed.

Lemma parseInt_u8 (b : byte) :
  parseInt (Feeder.u8_toString b) = Num (byte_val b).
Proof.
  pose proof (byte_val_range b) as H.
  unfold Feeder.u8_toString. fold (byte_val b).
  rewrite parseInt_toString by lia.
  apply to_number_small. unfold two53. lia.
Qed.

(** [parseInt] at work. *)
Example parseInt_decimal : parseInt "12" = Num 12.
Proof. reflexivity. Qed.
Example parseInt_separator : parseInt "1,234" = Num 1.
Proof. reflexivity. Qed.
Example parseInt_hexadecimal : parseInt " 0x1f" = Num 31.
Proof. reflexivity. Qed.
Example parseInt_signed : parseInt "-7px" = Num (-7).
Proof. reflexivity. Qed.
Example parseInt_letters : parseInt "abc" = NaN.
Proof. reflexivity. Qed.
Example parseInt_nothing : parseInt "" = NaN.
Proof. reflexivity. Qed.
Example parseInt_unsafe : parseInt "9007199254740993" = Num 9007199254740992.
Proof. vm_compute. reflexivity. Qed.

End Printing_and_parsing.

(* ================================================================== *)
(** * The live request decoder *)
(* ================================================================== *)

Section Decoder.

Local Open Scope Z_scope.

Lemma le_combine_nonneg (bs : list byte) : 0 <= le_combine (map byte_val bs).
Proof.
  induction bs as [|b bs IH]; cbn [map le_combine]; [ lia | ].
  pose proof (byte_val_range b). lia.
Qed.

Lemma numbers_of_bytes (bs : list byte) :
  map (fun value => parseInt (Feeder.u8_toString value)) bs = numbers_of bs.
Proof.
  unfold numbers_of. apply map_ext. exact parseInt_u8.
Qed.

Lemma Buffer_from_numbers (bs : list byte) :
  Buffer_from (numbers_of bs) = map byte_val bs.
Proof.
  unfold Buffer_from, numbers_of. rewrite map_map. apply map_ext.
  intro b. cbn [toUint8]. apply Z.mod_small, byte_val_range.
Qed.

Lemma byte_val_zero (b : byte) : byte_val b = 0 -> b = x00.
Proof.
  unfold byte_val. intro H.
  assert (E : Byte.to_N b = Byte.to_N x00) by (cbn; lia).
  apply (f_equal Byte.of_N) in E. rewrite !Byte.of_to_N in E. congruence.
Qed.

(** No first byte: the handler throws at [payloadType[0].toString()]. *)
Lemma decodeRequest_empty : Feeder.decodeRequest [] = Throw TypeError.
Proof. reflexivity. Qed.

(** A first byte other than 0: the handler does nothing. *)
Lemma decodeRequest_other (first : byte) (rest : list byte) :
  first <> x00 -> Feeder.decodeRequest (first :: rest) = Ok None.
Proof.
  intro H. unfold Feeder.decodeRequest.
  replace (slice (first :: rest) 0 1) with [first] by reflexivity.
  cbn [nth_error]. rewrite parseInt_u8.
  cbn [number_eqb].
  destruct (Z.eqb_spec (byte_val first) 0) as [E | E]; [ | reflexivity ].
  apply byte_val_zero in E. contradiction.
Qed.

(** First byte 0: the id is read off the first 8 bytes that follow, and
    needs them all; what lies beyond byte 16 is the caller. *)
Lemma decodeRequest_zero (rest : list byte) :
  Feeder.decodeRequest (x00 :: rest)
  = if (8 <=? List.length rest)%nat
    then Ok (Some {| Feeder.request_id :=
                       to_number (le_combine (map byte_val (firstn 8 rest)));
                     Feeder.caller := numbers_of (skipn 16 rest) |})
    else Throw RangeError.
Proof.
  unfold Feeder.decodeRequest.
  replace (slice (x00 :: rest) 0 1) with [x00] by reflexivity.
  replace (slice (x00 :: rest) 1 17) with (firstn 16 rest) by reflexivity.
  replace (slice_from (x00 :: rest) 17) with (skipn 16 rest) by reflexivity.
  cbn [nth_error]. rewrite parseInt_u8.
  change (number_eqb (Num (byte_val x00)) (Num 0)) with true. cbv iota.
  rewrite !numbers_of_bytes, Buffer_from_numbers.
  unfold readBigUInt64LE. cbn [skipn Nat.add].
  rewrite length_map, length_firstn.
  rewrite <- firstn_map, firstn_firstn, firstn_map.
  change (Nat.min 8 16) with 8%nat.
  destruct (Nat.leb_spec 8 (List.length rest)) as [H | H].
  - replace (8 <=? Nat.min 16 (List.length rest))%nat with true
      by (symmetry; apply Nat.leb_le; lia).
    rewrite parseInt_toString by apply le_combine_nonneg. reflexivity.
  - replace (8 <=? Nat.min 16 (List.length rest))%nat with false
      by (symmetry; apply Nat.leb_gt; lia).
    reflexivity.
Qed.

(** ** Little-endian fields *)

Lemma byte_of_step (b : byte) (c : Z) : byte_of (byte_val b + 256 * c) = b.
Proof.
  unfold byte_of.
  replace ((byte_val b + 256 * c) mod 256) with (byte_val b).
  - unfold byte_val. rewrite N2Z.id, Byte.of_to_N. reflexivity.
  - pose proof (byte_val_range b).
    rewrite (Z.mul_comm 256 c), Z.mod_add by lia.
    symmetry. apply Z.mod_small. assumption.
Qed.

Lemma div_step (b : byte) (c : Z) : (byte_val b + 256 * c) / 256 = c.
Proof.
  pose proof (byte_val_range b).
  rewrite (Z.mul_comm 256 c), Z.div_add by lia.
  rewrite (Z.div_small (byte_val b)) by assumption. lia.
Qed.

Lemma le_split_zero (n : nat) : le_split n 0 = repeat x00 n.
Proof. induction n; cbn [le_split repeat]; [ | rewrite <- IHn ]; reflexivity. Qed.

(** Splitting what was combined gives the bytes back, then zeros. *)
Lemma le_split_combine (bs : list byte) (extra : nat) :
  le_split (List.length bs + extra) (le_combine (map byte_val bs))
  = bs ++ repeat x00 extra.
Proof.
  induction bs as [|b bs IH]; cbn [List.length Nat.add map le_combine app].
  - apply le_split_zero.
  - cbn [le_split]. rewrite byte_of_step, div_step, IH. reflexivity.
Qed.

Lemma le_combine_split (n : nat) (z : Z) :
  0 <= z ->
  le_combine (map byte_val (le_split n z)) = z mod 256 ^ Z.of_nat n.
Proof.
  revert z. induction n as [|n IH]; intros z Hz.
  - cbn. rewrite Z.mod_1_r. reflexivity.
  - cbn [le_split map le_combine].
    rewrite IH by (apply Z.div_pos; lia).
    rewrite Nat2Z.inj_succ, Z.pow_succ_r by lia.
    replace (byte_val (byte_of z)) with (z mod 256).
    + rewrite Z.rem_mul_r by lia. reflexivity.
    + unfold byte_val, byte_of.
      pose proof (Z.mod_pos_bound z 256 ltac:(lia)) as Hm.
      destruct (Byte.of_N (Z.to_N (z mod 256))) as [b|] eqn:E.
      * apply Byte.to_of_N in E. rewrite E. lia.
      * apply Byte.of_N_None_iff in E. lia.
Qed.

Lemma firstn_le_split (k m : nat) (z : Z) :
  firstn k (le_split (k + m) z) = le_split k z.
Proof.
  revert z. induction k as [|k IH]; intro z; [ reflexivity | ].
  cbn [Nat.add le_split firstn]. rewrite IH. reflexivity.
Qed.

Lemma length_le_split (n : nat) (z : Z) : List.length (le_split n z) = n.
Proof.
  revert z. induction n as [|n IH]; intro z; cbn [le_split List.length];
    [ | rewrite IH ]; reflexivity.
Qed.

(** What the decoder makes of a payload that the oracle program built. *)
Lemma decodeRequest_new_request (id : Z) (caller_bytes : list byte) :
  0 <= id < 2 ^ 64 ->
  Feeder.decodeRequest (new_request id caller_bytes)
  = Ok (Some {| Feeder.request_id := to_number id;
                Feeder.caller := numbers_of caller_bytes |}).
Proof.
  intro Hid. unfold new_request. rewrite decodeRequest_zero.
  rewrite length_app, length_le_split. cbn [Nat.add Nat.leb].
  rewrite firstn_app, length_le_split.
  change (8 - 16)%nat with 0%nat. rewrite firstn_O, app_nil_r.
  change (firstn 8 (le_split 16 id)) with (firstn 8 (le_split (8 + 8) id)).
  rewrite (firstn_le_split 8 8), le_combine_split by lia.
  change (256 ^ Z.of_nat 8) with (2 ^ 64). rewrite Z.mod_small by assumption.
  rewrite skipn_app, length_le_split.
  change (16 - 16)%nat with 0%nat. rewrite skipn_O.
  rewrite (skipn_all2 (le_split 16 id)) by (rewrite length_le_split; lia).
  reflexivity.
Qed.

End Decoder.

(* ================================================================== *)
(** * The update submitter *)
(* ================================================================== *)

(** Unfolds a run of the submitter down to the answers of the
    collaborators. *)
Ltac run_submitter :=
  cbv [Feeder.updateOracleValue Beacon.updateOracleValue
       bind try_catch call now emit enqueue console_log ret throw detached
       trace pending randoms submissions fst snd];
  cbv beta iota.

Ltac flatten_trace := rewrite <- ?app_assoc; cbn [app].

Section Submitter.

(** The submitter's own promise never rejects: whatever the collaborators
    answer, the call returns normally, and the world moves on only by what
    it appended to the trace and to the callbacks held by the library. *)
Lemma updateOracleValue_returns (g : GearApi) (item : OracleUpdateValue)
  (w : world) :
  exists t js,
    Feeder.updateOracleValue g item w
    = (Ok tt, mkWorld (trace w ++ Invoked item :: t) (pending w ++ js)
                      (randoms w) (submissions w))
    /\ invocations t = [] /\ unhandled t = []
    /\ (js = [] \/ exists m evs, signAndSend g m = Ok evs
                                 /\ js = map (StatusCallback item) evs).
Proof.
  destruct w as [tr pe ra su]. run_submitter.
  destruct (getWasmMetadata g) as [meta|e1].
  2:{ eexists _, []. flatten_trace. rewrite app_nil_r.
      repeat split; [ reflexivity .. | left; reflexivity ]. }
  destruct (CreateType_create g _ meta) as [hex|e2].
  2:{ eexists _, []. flatten_trace. rewrite app_nil_r.
      repeat split; [ reflexivity .. | left; reflexivity ]. }
  destruct (decodeAddress g) as [sender|e3].
  2:{ eexists _, []. flatten_trace. rewrite app_nil_r.
      repeat split; [ reflexivity .. | left; reflexivity ]. }
  destruct (calculateGas_handle g sender _ hex 0 true) as [gas|e4].
  2:{ eexists _, []. flatten_trace. rewrite app_nil_r.
      repeat split; [ reflexivity .. | left; reflexivity ]. }
  destruct (message_send g _) as [ext|e5].
  2:{ eexists _, []. flatten_trace. rewrite app_nil_r.
      repeat split; [ reflexivity .. | left; reflexivity ]. }
  destruct (signAndSend g ext) as [evs|e6] eqn:E.
  2:{ eexists _, []. flatten_trace. rewrite app_nil_r.
      repeat split; [ reflexivity .. | left; reflexivity ]. }
  eexists _, _. flatten_trace.
  repeat split; [ reflexivity .. | right; eauto ].
Qed.

End Submitter.

(* ================================================================== *)
(** * Reading traces *)
(* ================================================================== *)

Section Traces.

Lemma invocations_app (t u : list event) :
  invocations (t ++ u) = invocations t ++ invocations u.
Proof.
  induction t as [|e t IH]; [ reflexivity | ].
  destruct e; simpl; rewrite IH; reflexivity.
Qed.

Lemma log_lines_app (t u : list event) :
  log_lines (t ++ u) = log_lines t ++ log_lines u.
Proof.
  induction t as [|e t IH]; [ reflexivity | ].
  destruct e; simpl; rewrite IH; reflexivity.
Qed.

Lemma unhandled_app (t u : list event) :
  unhandled (t ++ u) = unhandled t ++ unhandled u.
Proof.
  induction t as [|e t IH]; [ reflexivity | ].
  destruct e; simpl; rewrite IH; reflexivity.
Qed.

End Traces.

(* ================================================================== *)
(** * The orchestrator *)
(* ================================================================== *)

Section Orchestrator.

Variable random_source : nat -> spec_float.
Variable api : nat -> GearApi.

(** One submission as both triggers start it: a fresh random value, then
    the submitter, whose promise is dropped. *)
Lemma submission_started (request : number) (w : world) :
  exists w' t,
    (random <- Math_random random_source ;;
     gearApi <- gearApi_now api ;;
     detached
       (Feeder.updateOracleValue gearApi
          {| id := request;
             value := Feeder.getRandomNumber random 9999999999999 |})) w
    = (Ok tt, w')
    /\ trace w'
       = trace w
         ++ Invoked {| id := request;
                       value :=
                         Feeder.getRandomNumber (random_source (randoms w))
                           9999999999999 |} :: t
    /\ invocations t = [] /\ unhandled t = [].
Proof.
  unfold bind at 1. unfold Math_random at 1. cbv beta iota.
  unfold bind at 1. unfold gearApi_now at 1. cbv beta iota.
  cbn [randoms submissions trace pending].
  match goal with
  | |- context [detached (Feeder.updateOracleValue ?g ?item) ?w0] =>
      destruct (updateOracleValue_returns g item w0) as (t & js & E & Hi & Hu & _);
      exists (snd (Feeder.updateOracleValue g item w0)), t;
      unfold detached, try_catch; rewrite E
  end.
  cbn [snd trace]. repeat split; assumption.
Qed.

(** The startup batch: one submission per entry of the queue, in order. *)
Lemma batch_started (items : list Feeder.OracleQueueItem) (w : world) :
  exists w',
    forM items
      (fun item =>
         random <- Math_random random_source ;;
         gearApi <- gearApi_now api ;;
         detached
           (Feeder.updateOracleValue gearApi
              {| id := Feeder.item_id item;
                 value := Feeder.getRandomNumber random 9999999999999 |})) w
    = (Ok tt, w')
    /\ exists started,
         invocations (trace w') = invocations (trace w) ++ started
         /\ map id started = map Feeder.item_id items
         /\ Forall (fun s => exists k,
                      value s = Feeder.getRandomNumber (random_source k)
                             9999999999999) started
         /\ unhandled (trace w') = unhandled (trace w).
Proof.
  revert w. induction items as [|item items IH]; intro w.
  - exists w. split; [ reflexivity | ].
    exists []. rewrite app_nil_r. repeat split. constructor.
  - cbn [forM]. unfold bind at 1.
    destruct (submission_started (Feeder.item_id item) w)
      as (w1 & t & E & Ht & Hi & Hu).
    rewrite E.
    destruct (IH w1) as (w2 & E2 & started & Hs & Hids & Hvals & Hun).
    exists w2. split; [ exact E2 | ].
    eexists (_ :: started). rewrite Hs, Hun, Ht.
    rewrite invocations_app, unhandled_app. cbn [invocations unhandled].
    rewrite Hi, Hu, app_nil_r. rewrite <- app_assoc. cbn [app map id].
    repeat split.
    + f_equal. exact Hids.
    + constructor; [ eexists; reflexivity | exact Hvals ].
Qed.

End Orchestrator.

(* ================================================================== *)
(** * The event loop *)
(* ================================================================== *)

Section EventLoop.

(** A status callback prints a line or throws; run in a turn of its own it
    leaves one entry in the trace and nothing else. *)
Lemma callback_turn (j : job) (w : world) :
  exists e, Host.turn (Host.run_job j) w
            = mkWorld (trace w ++ [e]) (pending w) (randoms w) (submissions w)
            /\ invocations [e] = [].
Proof.
  destruct j as [item [[|]] | round random [[|]]];
    (eexists; split; [ reflexivity | reflexivity ]).
Qed.

Lemma callbacks_delivered (js : list job) (w : world) :
  exists t,
    fold_left (fun w j => Host.turn (Host.run_job j) w) js w
    = mkWorld (trace w ++ t) (pending w) (randoms w) (submissions w)
    /\ invocations t = [].
Proof.
  revert w. induction js as [|j js IH]; intro w.
  - exists []. rewrite app_nil_r. destruct w; split; reflexivity.
  - cbn [fold_left].
    destruct (callback_turn j w) as (e & -> & He).
    destruct (IH (mkWorld (trace w ++ [e]) (pending w) (randoms w)
                          (submissions w))) as (t & -> & Ht).
    cbn [trace pending randoms submissions].
    exists (e :: t). rewrite <- app_assoc. split; [ reflexivity | ].
    change (e :: t) with ([e] ++ t). rewrite invocations_app, He, Ht.
    reflexivity.
Qed.

(** Delivery empties the queue of callbacks and only adds to the trace. *)
Lemma deliver_spec (w : world) :
  exists t, Host.deliver w
            = mkWorld (trace w ++ t) [] (randoms w) (submissions w)
            /\ invocations t = []
            /\ (pending w = [] -> t = []).
Proof.
  unfold Host.deliver.
  destruct (callbacks_delivered (pending w)
              (mkWorld (trace w) [] (randoms w) (submissions w)))
    as (t & E & Ht).
  destruct (pending w) as [|j js] eqn:Ep.
  - exists []. rewrite app_nil_r. repeat split.
  - exists t. rewrite E. repeat split; [ assumption | discriminate ].
Qed.

End EventLoop.

(* ================================================================== *)
(** * The beacon variant *)
(* ================================================================== *)

Section BeaconTicks.

Variable fetchRandomValue : nat -> result (number * Random).
Variable api : nat -> GearApi.

Lemma beacon_updateOracleValue_returns (g : GearApi) (data : number * Random)
  (w : world) :
  exists t js,
    Beacon.updateOracleValue data g w
    = (Ok tt, mkWorld (trace w ++ InvokedBeacon (fst data) :: t)
                      (pending w ++ js) (randoms w) (submissions w)).
Proof.
  destruct w as [tr pe ra su]. destruct data as [round random].
  run_submitter.
  destruct (getWasmMetadata g) as [meta|e1];
    [ | eexists _, []; flatten_trace; rewrite app_nil_r; reflexivity ].
  destruct (CreateType_create g _ meta) as [hex|e2];
    [ | eexists _, []; flatten_trace; rewrite app_nil_r; reflexivity ].
  destruct (decodeAddress g) as [sender|e3];
    [ | eexists _, []; flatten_trace; rewrite app_nil_r; reflexivity ].
  destruct (calculateGas_handle g sender _ hex 0 true) as [gas|e4];
    [ | eexists _, []; flatten_trace; rewrite app_nil_r; reflexivity ].
  destruct (message_send g _) as [ext|e5];
    [ | eexists _, []; flatten_trace; rewrite app_nil_r; reflexivity ].
  destruct (signAndSend g ext) as [evs|e6];
    [ | eexists _, []; flatten_trace; rewrite app_nil_r; reflexivity ].
  eexists _, _. flatten_trace. reflexivity.
Qed.

(** The timer fires once more. *)
Lemma beacon_next_tick (n : nat) :
  Host.beacon fetchRandomValue api (S n)
  = Host.step (Beacon.tick fetchRandomValue api n)
              (Host.beacon fetchRandomValue api n).
Proof.
  unfold Host.beacon. rewrite seq_S, fold_left_app. reflexivity.
Qed.

(** Between two turns the library holds no callback. *)
Lemma beacon_idle (n : nat) :
  pending (Host.beacon fetchRandomValue api n) = [].
Proof.
  destruct n as [|n].
  - reflexivity.
  - rewrite beacon_next_tick. unfold Host.step.
    destruct (deliver_spec (Host.turn (Beacon.tick fetchRandomValue api n)
                              (Host.beacon fetchRandomValue api n)))
      as (t & -> & _).
    reflexivity.
Qed.

(** Every tick starts by calling [fetchRandomValue]. *)
Lemma tick_fetches (n : nat) (w : world) :
  exists t,
    trace (Host.step (Beacon.tick fetchRandomValue api n) w)
    = trace w ++ CalledFetchRandomValue :: t.
Proof.
  unfold Host.step.
  destruct (deliver_spec (Host.turn (Beacon.tick fetchRandomValue api n) w))
    as (t & -> & _).
  cbn [trace].
  assert (exists u, trace (Host.turn (Beacon.tick fetchRandomValue api n) w)
                    = trace w ++ CalledFetchRandomValue :: u) as (u & ->).
  { unfold Host.turn, detached, try_catch, Beacon.tick.
    unfold bind at 1. unfold call at 1. cbn [emit].
    destruct (fetchRandomValue n) as [data|e].
    - unfold bind at 1. unfold console_log, emit. cbv beta iota.
      unfold bind at 1. unfold gearApi_now at 1. cbv beta iota.
      cbn [trace pending randoms submissions].
      match goal with
      | |- context [Beacon.updateOracleValue ?d ?g ?w0] =>
          destruct (beacon_updateOracleValue_returns g d w0) as (t1 & js & ->)
      end.
      cbn [snd trace]. flatten_trace. eexists. reflexivity.
    - cbn [emit snd trace pending randoms submissions]. flatten_trace.
      eexists. reflexivity. }
  rewrite <- app_assoc. cbn [app]. eexists. reflexivity.
Qed.

(** A tick whose fetch fails: the rejection leaves the callback, nothing
    else happens. *)
Lemma tick_failed (n : nat) (e : error) (w : world) :
  fetchRandomValue n = Throw e -> pending w = [] ->
  Host.step (Beacon.tick fetchRandomValue api n) w
  = mkWorld (trace w ++ [CalledFetchRandomValue; Unhandled e]) []
            (randoms w) (submissions w).
Proof.
  intros Hf Hp.
  unfold Host.step, Host.turn, detached, try_catch, Beacon.tick.
  unfold bind at 1. unfold call at 1. cbn [emit]. rewrite Hf.
  cbn [emit snd trace pending randoms submissions]. unfold Host.deliver.
  cbn [trace pending randoms submissions].
  rewrite Hp. cbn [fold_left]. flatten_trace. reflexivity.
Qed.

End BeaconTicks.

(* ================================================================== *)
(** * The event handler *)
(* ================================================================== *)

Section Handler.

Variable random_source : nat -> spec_float.
Variable api : nat -> GearApi.

(** An event of another program is dropped unread. *)
Lemma handler_other_source (src dst : string) (p : list byte) (w : world) :
  src <> Feeder.ORACLE_ADDRESS ->
  Feeder.onUserMessageSent random_source api src dst p w = (Ok tt, w).
Proof.
  intro H. unfold Feeder.onUserMessageSent.
  destruct (String.eqb_spec src Feeder.ORACLE_ADDRESS); [ contradiction | ].
  reflexivity.
Qed.

(** What the decoder throws leaves the handler. *)
Lemma handler_throws (dst : string) (p : list byte) (e : error) (w : world) :
  Feeder.decodeRequest p = Throw e ->
  Feeder.onUserMessageSent random_source api Feeder.ORACLE_ADDRESS dst p w
  = (Throw e, w).
Proof.
  intro H. unfold Feeder.onUserMessageSent.
  rewrite String.eqb_refl, H. reflexivity.
Qed.


End Handler.

(* ================================================================== *)
(** * Properties of the decoder *)
(* ================================================================== *)

Section DecoderProperties.

Local Open Scope Z_scope.

Lemma payload_shape (p : list byte) :
  nth_error p 0 = Some x00 -> exists rest, p = x00 :: rest.
Proof.
  destruct p as [|b rest]; cbn [nth_error]; [ discriminate | ].
  intros [= ->]. exists rest. reflexivity.
Qed.

Lemma id_field_cons (rest : list byte) :
  id_field (x00 :: rest) = le_combine (map byte_val (firstn 8 rest)).
Proof. reflexivity. Qed.




(** C2, a counterexample.  The id [2^53 + 1] does not survive: the handler
    turns the 64-bit integer into a double, so it extracts [2^53], and
    encoding that gives other bytes than the ones received. *)
Lemma id_round_trip_fails_above_2_53 :
  id_field Scenario.unsafe_id = 2 ^ 53 + 1
  /\ Feeder.decodeRequest Scenario.unsafe_id
     = Ok (Some {| Feeder.request_id := Num (2 ^ 53);
                   Feeder.caller := numbers_of Scenario.caller32 |})
  /\ encode_id (Num (2 ^ 53)) <> Some (slice Scenario.unsafe_id 1 17).
Proof.
  split; [ vm_compute; reflexivity | ].
  split; [ vm_compute; reflexivity | ].
  vm_compute. discriminate.
Qed.

(** C8, a counterexample.  The largest 64-bit id comes out as [2^64]. *)
Lemma largest_id_is_rounded :
  Feeder.decodeRequest (new_request (2 ^ 64 - 1) Scenario.caller32)
  = Ok (Some {| Feeder.request_id := Num (2 ^ 64);
                Feeder.caller := numbers_of Scenario.caller32 |})
  /\ Num (2 ^ 64) <> Num (2 ^ 64 - 1).
Proof.
  split; [ vm_compute; reflexivity | discriminate ].
Qed.

(** C8, as the code has it.  A payload made of the discriminant 0, the 16
    byte little-endian field of a 64-bit id and the caller bytes decodes to
    the double nearest to the id, which is the id itself below [2^53], and
    to the caller bytes, one number per byte. *)
Theorem decode_new_request (request : Z) (caller_bytes : list byte) :
  0 <= request < 2 ^ 64 ->
  Feeder.decodeRequest (new_request request caller_bytes)
  = Ok (Some {| Feeder.request_id := to_number request;
                Feeder.caller := numbers_of caller_bytes |})
  /\ List.length (numbers_of caller_bytes) = List.length caller_bytes
  /\ (request < two53 -> to_number request = Num request).
Proof.
  intro H. split; [ apply decodeRequest_new_request; assumption | ].
  split; [ apply length_map | ].
  intro Hs. apply to_number_small. lia.
Qed.

Lemma decode_new_request_witness :
  Feeder.decodeRequest (new_request 42 Scenario.caller32)
  = Ok (Some {| Feeder.request_id := to_number 42;
                Feeder.caller := numbers_of Scenario.caller32 |})
  /\ List.length (numbers_of Scenario.caller32) = List.length Scenario.caller32
  /\ (42 < two53 -> to_number 42 = Num 42).
Proof.
  apply (decode_new_request 42 Scenario.caller32). lia.
Defined.

(** The scenario of the specification: id 42 and 32 caller bytes. *)
Example decode_42 :
  Feeder.decodeRequest (new_request 42 Scenario.caller32)
  = Ok (Some {| Feeder.request_id := Num 42;
                Feeder.caller := repeat (Num 171) 32 |}).
Proof. vm_compute. reflexivity. Qed.

(** C10.  Two payloads of at least 17 bytes with discriminant 0 that agree
    on bytes 1-8 decode to the same id, whatever bytes 9-16 hold. *)
Theorem high_id_bytes_ignored (p q : list byte) :
  nth_error p 0 = Some x00 -> nth_error q 0 = Some x00 ->
  (17 <= List.length p)%nat -> (17 <= List.length q)%nat ->
  slice p 1 9 = slice q 1 9 ->
  exists r s,
    Feeder.decodeRequest p = Ok (Some r)
    /\ Feeder.decodeRequest q = Ok (Some s)
    /\ Feeder.request_id r = Feeder.request_id s.
Proof.
  intros Hp Hq Lp Lq Heq.
  destruct (payload_shape p Hp) as (p' & ->).
  destruct (payload_shape q Hq) as (q' & ->).
  cbn [List.length] in Lp, Lq.
  replace (slice (x00 :: p') 1 9) with (firstn 8 p') in Heq by reflexivity.
  replace (slice (x00 :: q') 1 9) with (firstn 8 q') in Heq by reflexivity.
  rewrite !decodeRequest_zero.
  destruct (Nat.leb_spec 8 (List.length p')); [ | lia ].
  destruct (Nat.leb_spec 8 (List.length q')); [ | lia ].
  eexists _, _. split; [ reflexivity | ]. split; [ reflexivity | ].
  cbn [Feeder.request_id]. rewrite Heq. reflexivity.
Qed.

Lemma high_id_bytes_ignored_witness :
  exists r s,
    Feeder.decodeRequest (new_request 42 Scenario.caller32) = Ok (Some r)
    /\ Feeder.decodeRequest Scenario.high_bytes_set = Ok (Some s)
    /\ Feeder.request_id r = Feeder.request_id s.
Proof.
  apply (high_id_bytes_ignored (new_request 42 Scenario.caller32)
           Scenario.high_bytes_set).
  - reflexivity.
  - reflexivity.
  - cbn. lia.
  - cbn. lia.
  - reflexivity.
Defined.

End DecoderProperties.

(* ================================================================== *)
(** * Properties of the submitter, the producer and the beacon *)
(* ================================================================== *)

Section FeederProperties.

Local Open Scope Z_scope.

(** The two ways a submission ends.  Either some step up to [signAndSend]
    fails: the [catch] prints the failure line and no callback is left
    behind.  Or every step succeeds: nothing is printed yet and the status
    callbacks are in the hands of the library.  Either way the call returns
    normally. *)
Lemma submitter_outcomes (g : GearApi) (item : OracleUpdateValue) (w : world) :
  exists t js,
    Feeder.updateOracleValue g item w
    = (Ok tt, mkWorld (trace w ++ t) (pending w ++ js)
                      (randoms w) (submissions w))
    /\ ((log_lines t = [LogFailed] /\ js = [])
        \/ (log_lines t = []
            /\ exists ext evs, signAndSend g ext = Ok evs
                               /\ js = map (StatusCallback item) evs)).
Proof.
  destruct w as [tr pe ra su]. run_submitter.
  destruct (getWasmMetadata g) as [meta|e1];
    [ | eexists _, []; flatten_trace; rewrite (app_nil_r pe);
        split; [ reflexivity | left; split; reflexivity ] ].
  destruct (CreateType_create g _ meta) as [hex|e2];
    [ | eexists _, []; flatten_trace; rewrite (app_nil_r pe);
        split; [ reflexivity | left; split; reflexivity ] ].
  destruct (decodeAddress g) as [sender|e3];
    [ | eexists _, []; flatten_trace; rewrite (app_nil_r pe);
        split; [ reflexivity | left; split; reflexivity ] ].
  destruct (calculateGas_handle g sender _ hex 0 true) as [gas|e4];
    [ | eexists _, []; flatten_trace; rewrite (app_nil_r pe);
        split; [ reflexivity | left; split; reflexivity ] ].
  destruct (message_send g _) as [ext|e5];
    [ | eexists _, []; flatten_trace; rewrite (app_nil_r pe);
        split; [ reflexivity | left; split; reflexivity ] ].
  destruct (signAndSend g ext) as [evs|e6] eqn:E;
    [ | eexists _, []; flatten_trace; rewrite (app_nil_r pe);
        split; [ reflexivity | left; split; reflexivity ] ].
  eexists _, _. flatten_trace.
  split; [ reflexivity | right; split; [ reflexivity | eauto ] ].
Qed.

(** What the status callback leaves in the trace for one event. *)
Lemma status_callbacks_run (item : OracleUpdateValue)
  (evs : list SubmittableResult) (w : world) :
  trace (fold_left (fun w j => Host.turn (Host.run_job j) w)
           (map (StatusCallback item) evs) w)
  = trace w
    ++ map (fun ev : SubmittableResult =>
              if isError ev then Unhandled (Error "Can't send tx")
              else ConsoleLog (LogUpdateValue (id item) (value item))) evs.
Proof.
  revert w. induction evs as [|ev evs IH]; intro w; cbn [map fold_left].
  - rewrite app_nil_r. reflexivity.
  - rewrite IH. destruct ev as [[|]]; cbn; flatten_trace; reflexivity.
Qed.

(** A submission that goes through: every call in order, then one entry per
    status event, the failure line never; an event that reports an error
    ends as an exception nobody handles. *)
Lemma acknowledgment_runs_outside_try (g : GearApi) (item : OracleUpdateValue)
  (w : world) (meta : Metadata) (hex : Hex) (sender : string) (gas : GasInfo)
  (ext : Message) (evs : list SubmittableResult) :
  pending w = [] ->
  getWasmMetadata g = Ok meta ->
  CreateType_create g (UpdateValue (id item) (value item)) meta = Ok hex ->
  decodeAddress g = Ok sender ->
  calculateGas_handle g sender Feeder.ORACLE_ADDRESS hex 0 true = Ok gas ->
  message_send g {| destination := Feeder.ORACLE_ADDRESS; payload := hex;
                    gasLimit := min_limit gas; msg_value := 0 |} = Ok ext ->
  signAndSend g ext = Ok evs ->
  trace (Host.step (Feeder.updateOracleValue g item) w)
  = trace w
    ++ [ Invoked item;
         CalledGetWasmMetadata;
         CalledCreateType (UpdateValue (id item) (value item));
         CalledCalculateGas hex;
         CalledMessageSend {| destination := Feeder.ORACLE_ADDRESS;
                              payload := hex; gasLimit := min_limit gas;
                              msg_value := 0 |};
         CalledSignAndSend ext ]
    ++ map (fun ev : SubmittableResult =>
              if isError ev then Unhandled (Error "Can't send tx")
              else ConsoleLog (LogUpdateValue (id item) (value item))) evs.
Proof.
  intros Hp H1 H2 H3 H4 H5 H6.
  destruct w as [tr pe ra su]. cbn [pending] in Hp. subst pe.
  assert (E : Feeder.updateOracleValue g item (mkWorld tr [] ra su)
              = (Ok tt,
                 mkWorld
                   (tr ++ [ Invoked item;
                            CalledGetWasmMetadata;
                            CalledCreateType (UpdateValue (id item) (value item));
                            CalledCalculateGas hex;
                            CalledMessageSend
                              {| destination := Feeder.ORACLE_ADDRESS;
                                 payload := hex; gasLimit := min_limit gas;
                                 msg_value := 0 |};
                            CalledSignAndSend ext ])
                   (map (StatusCallback item) evs) ra su)).
  { run_submitter.
    rewrite H1. cbv beta iota. rewrite H2. cbv beta iota.
    rewrite H3. cbv beta iota. rewrite H4. cbv beta iota.
    rewrite H5. cbv beta iota. rewrite H6. cbv beta iota.
    flatten_trace. reflexivity. }
  unfold Host.step, Host.turn, Host.deliver, detached, try_catch.
  rewrite E. cbn [snd trace pending randoms submissions].
  rewrite status_callbacks_run. cbn [trace]. rewrite app_assoc. reflexivity.
Qed.

(** C3, at the input where the code departs from it: every call
    succeeds and the node then reports the transaction as failed.  The
    callback throws in a later turn, outside the [try] block of
    [updateOracleValue]: the failure line is not printed, the error is
    handled by nobody.  Both variants behave so. *)
Theorem acknowledgment_error_is_not_caught :
  trace (Host.step
           (Feeder.updateOracleValue Scenario.acknowledgment_error
              Scenario.item7) start)
  = [ Invoked Scenario.item7;
      CalledGetWasmMetadata;
      CalledCreateType (UpdateValue (Num 7) (Num 123));
      CalledCalculateGas "0x2a";
      CalledMessageSend Scenario.message7;
      CalledSignAndSend Scenario.message7;
      Unhandled (Error "Can't send tx") ]
  /\ log_lines
       (trace (Host.step
                 (Beacon.updateOracleValue Scenario.round9
                    Scenario.acknowledgment_error) start)) = []
  /\ unhandled
       (trace (Host.step
                 (Beacon.updateOracleValue Scenario.round9
                    Scenario.acknowledgment_error) start))
     = [ Error "Can't send tx" ].
Proof. split; [ | split ]; vm_compute; reflexivity. Qed.

(** C4.  Gas estimation comes before any step of the broadcast; when it
    fails the submitter prints the failure line, builds and sends no
    message, and leaves no callback behind. *)
Theorem gas_failure_stops_submission (g : GearApi) (item : OracleUpdateValue)
  (w : world) (meta : Metadata) (hex : Hex) (sender : string) (e : error) :
  getWasmMetadata g = Ok meta ->
  CreateType_create g (UpdateValue (id item) (value item)) meta = Ok hex ->
  decodeAddress g = Ok sender ->
  calculateGas_handle g sender Feeder.ORACLE_ADDRESS hex 0 true = Throw e ->
  Feeder.updateOracleValue g item w
  = (Ok tt,
     mkWorld (trace w
              ++ [ Invoked item;
                   CalledGetWasmMetadata;
                   CalledCreateType (UpdateValue (id item) (value item));
                   CalledCalculateGas hex;
                   ConsoleLog LogFailed ])
             (pending w) (randoms w) (submissions w))
  /\ forall (g' : GearApi) (w' : world) (before after : list event) (b : event),
       trace (snd (Feeder.updateOracleValue g' item w'))
       = trace w' ++ before ++ b :: after ->
       is_broadcast b = true ->
       existsb is_gas_estimation before = true.
Proof.
  intros H1 H2 H3 H4. split.
  - destruct w as [tr pe ra su]. run_submitter.
    rewrite H1. cbv beta iota. rewrite H2. cbv beta iota.
    rewrite H3. cbv beta iota. rewrite H4. cbv beta iota.
    flatten_trace. reflexivity.
  - clear. intros g w before after b Ht Hb.
    destruct w as [tr pe ra su]. revert Ht. run_submitter.
    assert (Hcut : forall (t : list event),
               tr ++ t = tr ++ before ++ b :: after ->
               t = before ++ b :: after)
      by (intros t Ht; apply app_inv_head in Ht; exact Ht).
    assert (Hscan : forall t : list event,
               t = before ++ b :: after ->
               (forall pre x post, t = pre ++ x :: post ->
                  is_broadcast x = true ->
                  existsb is_gas_estimation pre = true) ->
               existsb is_gas_estimation before = true)
      by (intros t -> Hall; exact (Hall _ _ _ eq_refl Hb)).
    destruct (getWasmMetadata g) as [meta|e1];
      [ destruct (CreateType_create g _ meta) as [hex|e2];
        [ destruct (decodeAddress g) as [sender|e3];
          [ destruct (calculateGas_handle g sender _ hex 0 true) as [gas|e4];
            [ destruct (message_send g _) as [ext|e5];
              [ destruct (signAndSend g ext) as [evs|e6] | ] | ] | ] | ] | ];
      cbn [trace snd]; flatten_trace; intro Ht; apply Hcut in Ht;
      apply (Hscan _ Ht); clear;
      intros pre x post E Hx;
      repeat (destruct pre as [|? pre];
              [ injection E as <- _; try discriminate Hx; reflexivity
              | injection E as <- E; cbn [existsb is_gas_estimation orb];
                try reflexivity ]);
      destruct pre; discriminate E.
Qed.

Lemma gas_failure_stops_submission_witness :
  Feeder.updateOracleValue Scenario.gas_failure Scenario.item7 start
  = (Ok tt,
     mkWorld [ Invoked Scenario.item7;
               CalledGetWasmMetadata;
               CalledCreateType (UpdateValue (Num 7) (Num 123));
               CalledCalculateGas "0x2a";
               ConsoleLog LogFailed ] [] 0 0).
Proof.
  apply (gas_failure_stops_submission Scenario.gas_failure Scenario.item7
           start "meta" "0x2a" "0xd4" (Failure "gas"));
    reflexivity.
Defined.

(** C7.  With the bound the feeder uses, whatever double below 1
    [Math.random()] returns, [getRandomNumber] is a non-negative integer
    strictly below the bound. *)
Theorem getRandomNumber_below_bound (random : spec_float) :
  unit_double random = true ->
  exists z, Feeder.getRandomNumber random 9999999999999 = Num z
            /\ 0 <= z < 9999999999999.
Proof. exact (getRandomNumber_range random). Qed.

Lemma getRandomNumber_below_bound_witness :
  exists z, Feeder.getRandomNumber Scenario.half 9999999999999 = Num z
            /\ 0 <= z < 9999999999999.
Proof.
  apply (getRandomNumber_below_bound Scenario.half). reflexivity.
Defined.

(** A half gives the middle, the largest double below 1 the largest value,
    the smallest positive double 0. *)
Example getRandomNumber_half :
  Feeder.getRandomNumber Scenario.half 9999999999999 = Num 4999999999999.
Proof. vm_compute. reflexivity. Qed.

Example getRandomNumber_largest :
  Feeder.getRandomNumber (S754_finite false 9007199254740991 (-53))
    9999999999999
  = Num 9999999999998.
Proof. vm_compute. reflexivity. Qed.

Example getRandomNumber_smallest :
  Feeder.getRandomNumber (S754_finite false 1 (-1074)) 9999999999999 = Num 0.
Proof. vm_compute. reflexivity. Qed.

(** Startup reconciliation, whatever the queue holds: it returns normally,
    having started one submission per entry, in order. *)
Lemma reconciliation_runs
  (random_source : nat -> spec_float) (api : nat -> GearApi)
  (queue : list (string * string)) (w : world) :
  exists w' started,
    Feeder.reconciliation random_source api (Ok queue) w = (Ok tt, w')
    /\ invocations (trace w') = invocations (trace w) ++ started
    /\ map id started = map (fun entry => parseInt (fst entry)) queue
    /\ Forall (fun s => exists k,
                 value s = Feeder.getRandomNumber (random_source k)
                             9999999999999) started
    /\ unhandled (trace w') = unhandled (trace w)
    /\ (queue = [] -> w' = w).
Proof.
  unfold Feeder.reconciliation, Feeder.getOracleRequestsQueue.
  unfold detached at 1. unfold try_catch at 1.
  unfold bind at 1. unfold bind at 1. unfold now, ret. cbv beta iota.
  match goal with
  | |- context [forM ?items ?f w] =>
      destruct (batch_started random_source api items w)
        as (w' & E & started & Hs & Hids & Hvals & Hun)
  end.
  exists w', started. rewrite E.
  split; [ reflexivity | ]. split; [ exact Hs | ].
  split; [ | split; [ exact Hvals | split; [ exact Hun | ] ] ].
  - rewrite Hids, map_map. apply map_ext. intros [i c]. reflexivity.
  - intros ->. cbn [map forM] in E. unfold ret in E. congruence.
Qed.

(** The scenario of the specification: a queue holding id 7. *)
Example reconciliation_of_7 :
  invocations
    (trace (Host.producer (fun _ => false) (fun _ => Scenario.half)
              (fun _ => Scenario.healthy) (Ok [("7", "0xd4")]) [] []))
  = [ {| id := Num 7; value := Num 4999999999999 |} ].
Proof. vm_compute. reflexivity. Qed.

(** C6, a counterexample.  An id that is no integer does not stop the
    reader: the entry comes out with the id [NaN]; an id printed with a
    thousands separator comes out as its leading digits; both are submitted
    like the others. *)
Lemma invalid_id_does_not_fail_the_reader :
  fst (Feeder.getOracleRequestsQueue
         (Ok [("abc", "0xd4"); ("1,234", "0xd5"); ("7", "0xd6")]) start)
  = Ok [ {| Feeder.item_id := NaN; Feeder.item_caller := "0xd4" |};
         {| Feeder.item_id := Num 1; Feeder.item_caller := "0xd5" |};
         {| Feeder.item_id := Num 7; Feeder.item_caller := "0xd6" |} ]
  /\ map id
       (invocations
          (trace (Host.producer (fun _ => false) (fun _ => Scenario.half)
                    (fun _ => Scenario.healthy)
                    (Ok [("abc", "0xd4"); ("1,234", "0xd5"); ("7", "0xd6")])
                    [] [])))
     = [ NaN; Num 1; Num 7 ].
Proof. split; vm_compute; reflexivity. Qed.

(** C6, as the code has it.  The reader applies [parseInt] to every id and
    never fails on one: it returns one item per entry of the queue, in
    order, with the caller untouched, and reconciliation goes on to start a
    submission for every one of them. *)
Theorem reader_parses_every_id
  (random_source : nat -> spec_float) (api : nat -> GearApi)
  (queue : list (string * string)) (w : world) :
  (exists items,
     Feeder.getOracleRequestsQueue (Ok queue) w = (Ok items, w)
     /\ List.length items = List.length queue
     /\ map Feeder.item_id items
        = map (fun entry => parseInt (fst entry)) queue
     /\ map Feeder.item_caller items = map snd queue)
  /\ exists w' started,
       Feeder.reconciliation random_source api (Ok queue) w = (Ok tt, w')
       /\ invocations (trace w') = invocations (trace w) ++ started
       /\ map id started = map (fun entry => parseInt (fst entry)) queue
       /\ unhandled (trace w') = unhandled (trace w).
Proof.
  split.
  - eexists. split; [ reflexivity | ].
    split; [ apply length_map | ].
    split; rewrite map_map; apply map_ext; intros [i c]; reflexivity.
  - destruct (reconciliation_runs random_source api queue w)
      as (w' & started & E & Hs & Hids & _ & Hun & _).
    exists w', started. repeat split; assumption.
Qed.

(** C9, a counterexample.  With the beacon down at the first tick, the
    tick prints nothing (the only line is the one of startup) and the
    rejection of [fetchRandomValue] is handled by nobody. *)
Lemma failed_fetch_is_not_logged :
  Scenario.beacon_down 0%nat = Throw (Failure "beacon unreachable")
  /\ log_lines
       (trace (Host.beacon Scenario.beacon_down (fun _ => Scenario.healthy) 1))
     = [ LogStarted ]
  /\ unhandled
       (trace (Host.beacon Scenario.beacon_down (fun _ => Scenario.healthy) 1))
     = [ Failure "beacon unreachable" ].
Proof. split; [ | split ]; vm_compute; reflexivity. Qed.

(** C9, as the code has it.  A tick whose fetch fails calls
    [fetchRandomValue] and stops there: it prints no line and starts no
    submission, and the rejection leaves the timer callback unhandled.  The
    timer stays armed: the tick after it calls [fetchRandomValue] again. *)
Theorem failed_fetch_skips_tick
  (fetchRandomValue : nat -> result (number * Random)) (api : nat -> GearApi)
  (n : nat) (e : error) :
  fetchRandomValue n = Throw e ->
  Host.beacon fetchRandomValue api (S n)
  = mkWorld (trace (Host.beacon fetchRandomValue api n)
             ++ [ CalledFetchRandomValue; Unhandled e ])
            []
            (randoms (Host.beacon fetchRandomValue api n))
            (submissions (Host.beacon fetchRandomValue api n))
  /\ exists t,
       trace (Host.beacon fetchRandomValue api (S (S n)))
       = trace (Host.beacon fetchRandomValue api (S n))
         ++ CalledFetchRandomValue :: t.
Proof.
  intro Hf. split.
  - rewrite beacon_next_tick.
    apply tick_failed; [ exact Hf | apply beacon_idle ].
  - rewrite (beacon_next_tick fetchRandomValue api (S n)).
    apply tick_fetches.
Qed.

Lemma failed_fetch_skips_tick_witness :
  Host.beacon Scenario.beacon_down (fun _ => Scenario.healthy) 1
  = mkWorld (trace (Host.beacon Scenario.beacon_down
                      (fun _ => Scenario.healthy) 0)
             ++ [ CalledFetchRandomValue;
                  Unhandled (Failure "beacon unreachable") ])
            []
            (randoms (Host.beacon Scenario.beacon_down
                        (fun _ => Scenario.healthy) 0))
            (submissions (Host.beacon Scenario.beacon_down
                            (fun _ => Scenario.healthy) 0)).
Proof.
  apply (failed_fetch_skips_tick Scenario.beacon_down
           (fun _ => Scenario.healthy) 0 (Failure "beacon unreachable")).
  reflexivity.
Defined.

End FeederProperties.

(* ================================================================== *)
(** * Further properties of the decoder *)
(* ================================================================== *)

Section DecoderFurther.

Local Open Scope Z_scope.

(** Rounding at bit [k] moves an integer by half a unit at most. *)
Lemma round_at_near (k n : Z) :
  0 < k -> 0 <= n -> Z.abs (round_at k n - n) <= 2 ^ (k - 1).
Proof.
  intros Hk Hn. unfold round_at.
  replace (k <=? 0) with false by (symmetry; apply Z.leb_gt; assumption).
  rewrite Z.shiftr_div_pow2, Z.land_ones by lia.
  rewrite (Z.shiftl_mul_pow2 1), Z.mul_1_l by lia.
  assert (Ph : 0 < 2 ^ (k - 1)) by (apply Z.pow_pos_nonneg; lia).
  assert (Ek : 2 ^ k = 2 * 2 ^ (k - 1)).
  { rewrite <- Z.pow_succ_r by lia. f_equal. lia. }
  pose proof (Z.div_mod n (2 ^ k) ltac:(lia)) as Hdm.
  pose proof (Z.mod_pos_bound n (2 ^ k) ltac:(lia)) as Hmod.
  set (q := n / 2 ^ k) in *. set (r := n mod 2 ^ k) in *.
  set (h := 2 ^ (k - 1)) in *.
  destruct (Z.ltb_spec r h) as [Hlt | Hge].
  - rewrite Z.shiftl_mul_pow2 by lia. lia.
  - destruct (Z.ltb_spec h r) as [Hgt | Hle].
    + rewrite Z.shiftl_mul_pow2 by lia. lia.
    + destruct (Z.even q); rewrite Z.shiftl_mul_pow2 by lia; lia.
Qed.

(** The double nearest to a non-negative integer, in integer arithmetic:
    the integer rounded to 53 significant bits. *)
Lemma to_number_rounds (n : Z) :
  0 <= n -> Z.log2 n <= 1022 ->
  to_number n = Num (round_at (Z.log2 n - 52) n).
Proof.
  intros Hn Hlog.
  destruct (Z.lt_ge_cases n two53) as [Hs | Hl].
  - rewrite to_number_small by lia. f_equal. unfold round_at.
    replace (Z.log2 n - 52 <=? 0) with true; [ reflexivity | ].
    symmetry. apply Z.leb_le.
    destruct (Z.eq_dec n 0) as [-> | Hn0]; [ cbn; lia | ].
    assert (Z.log2 n < 53) by (apply Z.log2_lt_pow2; [ lia | exact Hs ]).
    lia.
  - unfold two53 in Hl.
    assert (H53 : 53 <= Z.log2 n) by (apply Z.log2_le_pow2; lia).
    unfold to_number, binary64, binary_normalize.
    destruct n as [|p|p]; try lia.
    unfold binary_round.
    pose proof (digits2_log2 p) as Hd.
    assert (Ef : fexp 53 1024 (Zpos (digits2_pos p) + 0) = Z.log2 (Zpos p) - 52)
      by (unfold fexp, emin; lia).
    rewrite Ef. unfold shl_align.
    destruct (Z.log2 (Zpos p) - 52 - 0) as [|j|j] eqn:Ej; try lia.
    destruct (binary_round_aux_value false (Zpos p) 0 ltac:(lia))
      as [(R0 & ->) | (m & e & -> & He & Hv)].
    + cbn [Zdigits2]. lia.
    + lia.
    + cbn [Zdigits2] in R0. rewrite Ef, Z.sub_0_r in R0.
      cbn [Math_floor]. rewrite R0. reflexivity.
    + cbn [Zdigits2] in Hv. rewrite Ef, !Z.sub_0_r in Hv.
      cbn [Math_floor cond_Zopp]. f_equal.
      rewrite Z.shiftl_mul_pow2 by lia. exact Hv.
Qed.

(** A 64-bit integer and the double nearest to it. *)
Lemma to_number_64 (n : Z) :
  0 <= n < 2 ^ 64 ->
  exists z, to_number n = Num z
            /\ 0 <= z <= 2 ^ 64
            /\ Z.abs (z - n) <= 1024
            /\ (n < two53 -> z = n).
Proof.
  intros [H0 H1].
  assert (Hlog : Z.log2 n <= 63).
  { destruct (Z.eq_dec n 0) as [-> | Hn0]; [ cbn; lia | ].
    assert (Z.log2 n < 64) by (apply Z.log2_lt_pow2; lia). lia. }
  exists (round_at (Z.log2 n - 52) n).
  split; [ apply to_number_rounds; lia | ].
  destruct (Z.le_gt_cases (Z.log2 n - 52) 0) as [Hk | Hk].
  - unfold round_at.
    replace (Z.log2 n - 52 <=? 0) with true by (symmetry; apply Z.leb_le; lia).
    rewrite Z.sub_diag. cbn [Z.abs]. repeat split; lia.
  - assert (Hpos : 0 < n).
    { destruct (Z.eq_dec n 0) as [E0 | E0]; [ | lia ].
      rewrite E0 in Hk. cbn in Hk. lia. }
    set (k := Z.log2 n - 52) in *.
    pose proof (round_at_near k n Hk H0) as Hnear.
    assert (Hh : 2 ^ (k - 1) <= 2 ^ 10) by (apply Z.pow_le_mono_r; lia).
    change (2 ^ 10) with 1024 in Hh.
    destruct (round_at_spec k n Hk H0) as (q & Eq & Hq & _).
    assert (Pk : 0 < 2 ^ k) by (apply Z.pow_pos_nonneg; lia).
    assert (E64 : 2 ^ 64 = 2 ^ (64 - k) * 2 ^ k).
    { rewrite <- Z.pow_add_r by lia. f_equal. lia. }
    assert (Hdiv : n / 2 ^ k < 2 ^ (64 - k)).
    { apply Z.div_lt_upper_bound; [ lia | ]. rewrite Z.mul_comm, <- E64. lia. }
    assert (Hq0 : 0 <= n / 2 ^ k) by (apply Z.div_pos; lia).
    repeat split.
    + rewrite Eq. nia.
    + rewrite Eq, E64. nia.
    + lia.
    + intro Hs. exfalso.
      assert (Z.log2 n < 53) by (apply Z.log2_lt_pow2; [ lia | exact Hs ]).
      unfold k in Hk. lia.
Qed.

Lemma le_combine_below (bs : list byte) :
  le_combine (map byte_val bs) < 256 ^ Z.of_nat (List.length bs).
Proof.
  induction bs as [|b bs IH]; cbn [map le_combine List.length];
    [ reflexivity | ].
  pose proof (byte_val_range b).
  rewrite Nat2Z.inj_succ, Z.pow_succ_r by lia. lia.
Qed.

(** X1.  The decoder throws in two cases only: a [TypeError] on the empty
    payload, a [RangeError] when the first byte is 0 and fewer than 9 bytes
    are there.  On every other payload it returns. *)
Theorem decoder_faults (p : list byte) (e : error) :
  Feeder.decodeRequest p = Throw e
  <-> (p = [] /\ e = TypeError)
      \/ (nth_error p 0 = Some x00 /\ (List.length p < 9)%nat
          /\ e = RangeError).
Proof.
  destruct p as [|b rest].
  - rewrite decodeRequest_empty. split.
    + intros [= <-]. left. split; reflexivity.
    + intros [[_ ->] | [H _]]; [ reflexivity | discriminate H ].
  - destruct (Byte.byte_eq_dec b x00) as [-> | Hb].
    + rewrite decodeRequest_zero. cbn [nth_error List.length].
      destruct (Nat.leb_spec 8 (List.length rest)) as [H | H]; split.
      * discriminate.
      * intros [[H1 _] | (_ & H2 & _)]; [ discriminate H1 | lia ].
      * intros [= <-]. right. repeat split. lia.
      * intros [[H1 _] | (_ & _ & ->)]; [ discriminate H1 | reflexivity ].
    + rewrite decodeRequest_other by assumption. cbn [nth_error]. split.
      * discriminate.
      * intros [[H1 _] | (H1 & _)]; [ discriminate H1 | congruence ].
Qed.

(** X2.  The handler does nothing at all (no line, no random draw, no
    submission, no exception) for an event of another program, whatever
    its payload, and for an event of the oracle whose first byte is not
    0. *)
Theorem handler_ignores
  (random_source : nat -> spec_float) (api : nat -> GearApi)
  (src dst : string) (p : list byte) (w : world) :
  src <> Feeder.ORACLE_ADDRESS
  \/ (exists first rest, p = first :: rest /\ first <> x00) ->
  Feeder.onUserMessageSent random_source api src dst p w = (Ok tt, w).
Proof.
  intros [H | (first & rest & -> & H)].
  - apply handler_other_source. exact H.
  - unfold Feeder.onUserMessageSent.
    destruct (String.eqb src Feeder.ORACLE_ADDRESS); [ | reflexivity ].
    cbn [negb]. rewrite decodeRequest_other by assumption. reflexivity.
Qed.

Lemma handler_ignores_witness :
  Feeder.onUserMessageSent (fun _ => Scenario.half) (fun _ => Scenario.healthy)
    "0x" "0xd4" [x01; x02] start
  = (Ok tt, start).
Proof.
  apply (handler_ignores (fun _ => Scenario.half) (fun _ => Scenario.healthy)
           "0x" "0xd4" [x01; x02] start).
  right. exists x01, [x02]. split; [ reflexivity | discriminate ].
Defined.

(** X3.  Whatever bytes follow the discriminant 0, once 8 of them are there
    the id extracted is a non-negative integer, never [NaN]; it is at most
    [2^64], it lies within 1024 of the 64-bit integer held in bytes 1-8, and
    it is that integer when the integer is below [2^53]. *)
Theorem extracted_id_is_close (p : list byte) :
  nth_error p 0 = Some x00 -> (9 <= List.length p)%nat ->
  exists r z,
    Feeder.decodeRequest p = Ok (Some r)
    /\ Feeder.request_id r = Num z
    /\ 0 <= id_field p < 2 ^ 64
    /\ 0 <= z <= 2 ^ 64
    /\ Z.abs (z - id_field p) <= 1024
    /\ (id_field p < two53 -> z = id_field p).
Proof.
  intros H0 Hlen. destruct (payload_shape p H0) as (rest & ->).
  cbn [List.length] in Hlen. rewrite id_field_cons.
  assert (Hb : 0 <= le_combine (map byte_val (firstn 8 rest)) < 2 ^ 64).
  { split; [ apply le_combine_nonneg | ].
    pose proof (le_combine_below (firstn 8 rest)) as Hlt.
    rewrite length_firstn in Hlt.
    replace (Nat.min 8 (List.length rest)) with 8%nat in Hlt by lia.
    exact Hlt. }
  destruct (to_number_64 _ Hb) as (z & Ez & Hz & Hnear & Hsmall).
  rewrite decodeRequest_zero.
  destruct (Nat.leb_spec 8 (List.length rest)); [ | lia ].
  eexists _, z. split; [ reflexivity | ].
  cbn [Feeder.request_id]. repeat split; try assumption; try lia.
Qed.

Lemma extracted_id_is_close_witness :
  exists r z,
    Feeder.decodeRequest Scenario.unsafe_id = Ok (Some r)
    /\ Feeder.request_id r = Num z
    /\ 0 <= id_field Scenario.unsafe_id < 2 ^ 64
    /\ 0 <= z <= 2 ^ 64
    /\ Z.abs (z - id_field Scenario.unsafe_id) <= 1024
    /\ (id_field Scenario.unsafe_id < two53 -> z = id_field Scenario.unsafe_id).
Proof.
  apply (extracted_id_is_close Scenario.unsafe_id).
  - reflexivity.
  - cbn. lia.
Defined.

End DecoderFurther.

(* ================================================================== *)
(** * The id field, there and back *)
(* ================================================================== *)

Section IdRoundTrip.

Local Open Scope Z_scope.

(** C2, as the code has it.  For every payload of at least 17 bytes with
    discriminant 0 and a 64-bit id in the low bytes of its id field,
    whatever that id: the caller bytes come out unchanged, one number per
    byte; the id extracted is the double nearest to the id received, that
    is the id rounded to 53 significant bits, ties to even, at most 1024
    away from it; encoding the extracted id gives back the bytes received
    exactly when the id received is itself a double, which every id below
    [2^53] is. *)
Theorem id_round_trip (p : list byte) :
  nth_error p 0 = Some x00 -> (17 <= List.length p)%nat ->
  slice p 9 17 = repeat x00 8 ->
  exists r z,
    Feeder.decodeRequest p = Ok (Some r)
    /\ Feeder.caller r = numbers_of (slice_from p 17)
    /\ Feeder.request_id r = to_number (id_field p)
    /\ Feeder.request_id r = Num z
    /\ z = round_at (Z.log2 (id_field p) - 52) (id_field p)
    /\ 0 <= z <= 2 ^ 64
    /\ Z.abs (z - id_field p) <= 1024
    /\ (encode_id (Feeder.request_id r) = Some (slice p 1 17)
        <-> z = id_field p)
    /\ (id_field p < two53 -> z = id_field p).
Proof.
  intros H0 Hlen Hhigh. destruct (payload_shape p H0) as (rest & ->).
  cbn [List.length] in Hlen. rewrite id_field_cons in *.
  replace (slice (x00 :: rest) 9 17) with (firstn 8 (skipn 8 rest)) in Hhigh
    by reflexivity.
  replace (slice (x00 :: rest) 1 17) with (firstn 16 rest) by reflexivity.
  replace (slice_from (x00 :: rest) 17) with (skipn 16 rest) by reflexivity.
  set (n := le_combine (map byte_val (firstn 8 rest))) in *.
  assert (L8 : List.length (firstn 8 rest) = 8%nat)
    by (rewrite length_firstn; lia).
  assert (Hb : 0 <= n < 2 ^ 64).
  { split; [ apply le_combine_nonneg | ].
    pose proof (le_combine_below (firstn 8 rest)) as Hlt.
    rewrite L8 in Hlt. exact Hlt. }
  assert (Hlog : Z.log2 n <= 1022).
  { destruct (Z.eq_dec n 0) as [-> | Hn0]; [ cbn; lia | ].
    assert (Z.log2 n < 64) by (apply Z.log2_lt_pow2; lia). lia. }
  pose proof (to_number_rounds n (proj1 Hb) Hlog) as Er.
  destruct (to_number_64 n Hb) as (z & Ez & Hz & Hnear & Hsmall).
  assert (Ezr : z = round_at (Z.log2 n - 52) n) by congruence.
  assert (Ebytes : firstn 16 rest = le_split 16 n).
  { pose proof (le_split_combine (firstn 8 rest) 8) as E.
    rewrite L8 in E. change (8 + 8)%nat with 16%nat in E. fold n in E.
    rewrite E, <- Hhigh.
    rewrite <- (firstn_skipn 8 (firstn 16 rest)) at 1.
    rewrite firstn_firstn. change (Nat.min 8 16) with 8%nat.
    f_equal. rewrite skipn_firstn_comm. reflexivity. }
  exists {| Feeder.request_id := to_number n;
            Feeder.caller := numbers_of (skipn 16 rest) |}, z.
  rewrite decodeRequest_zero.
  destruct (Nat.leb_spec 8 (List.length rest)); [ | lia ].
  fold n. cbn [Feeder.request_id Feeder.caller].
  split; [ reflexivity | ]. split; [ reflexivity | ].
  split; [ reflexivity | ]. split; [ exact Ez | ].
  split; [ exact Ezr | ]. split; [ exact Hz | ]. split; [ exact Hnear | ].
  split; [ | exact Hsmall ].
  rewrite Ez, Ebytes. cbn [encode_id].
  replace (0 <=? z) with true by (symmetry; apply Z.leb_le; lia).
  split.
  - intro E.
    apply (f_equal (fun o : option (list byte) =>
                      match o with
                      | Some bs => le_combine (map byte_val bs)
                      | None => 0
                      end)) in E.
    cbv beta iota in E.
    rewrite !le_combine_split in E by lia.
    change (256 ^ Z.of_nat 16) with (2 ^ 128) in E.
    assert (2 ^ 64 < 2 ^ 128) by (apply Z.pow_lt_mono_r; lia).
    rewrite !Z.mod_small in E by lia. exact E.
  - intros ->. reflexivity.
Qed.

Lemma id_round_trip_witness :
  exists r z,
    Feeder.decodeRequest Scenario.unsafe_id = Ok (Some r)
    /\ Feeder.caller r = numbers_of (slice_from Scenario.unsafe_id 17)
    /\ Feeder.request_id r = to_number (id_field Scenario.unsafe_id)
    /\ Feeder.request_id r = Num z
    /\ z = round_at (Z.log2 (id_field Scenario.unsafe_id) - 52)
                    (id_field Scenario.unsafe_id)
    /\ 0 <= z <= 2 ^ 64
    /\ Z.abs (z - id_field Scenario.unsafe_id) <= 1024
    /\ (encode_id (Feeder.request_id r)
        = Some (slice Scenario.unsafe_id 1 17)
        <-> z = id_field Scenario.unsafe_id)
    /\ (id_field Scenario.unsafe_id < two53
        -> z = id_field Scenario.unsafe_id).
Proof.
  apply (id_round_trip Scenario.unsafe_id).
  - reflexivity.
  - cbn. lia.
  - reflexivity.
Defined.

End IdRoundTrip.

(* ================================================================== *)
(** * Further properties of the submitter *)
(* ================================================================== *)

Section SubmitterFurther.

(** The submitter reads nothing of the world: run anywhere, it adds what it
    adds when run at the start. *)
Lemma updateOracleValue_frame (g : GearApi) (item : OracleUpdateValue)
  (w : world) :
  Feeder.updateOracleValue g item w
  = (Ok tt,
     mkWorld (trace w ++ trace (snd (Feeder.updateOracleValue g item start)))
             (pending w
              ++ pending (snd (Feeder.updateOracleValue g item start)))
             (randoms w) (submissions w)).
Proof.
  destruct w as [tr pe ra su]. unfold start. run_submitter.
  destruct (getWasmMetadata g) as [meta|e1];
    [ | cbn [app]; flatten_trace; rewrite (app_nil_r pe); reflexivity ].
  destruct (CreateType_create g _ meta) as [hex|e2];
    [ | cbn [app]; flatten_trace; rewrite (app_nil_r pe); reflexivity ].
  destruct (decodeAddress g) as [sender|e3];
    [ | cbn [app]; flatten_trace; rewrite (app_nil_r pe); reflexivity ].
  destruct (calculateGas_handle g sender _ hex 0 true) as [gas|e4];
    [ | cbn [app]; flatten_trace; rewrite (app_nil_r pe); reflexivity ].
  destruct (message_send g _) as [ext|e5];
    [ | cbn [app]; flatten_trace; rewrite (app_nil_r pe); reflexivity ].
  destruct (signAndSend g ext) as [evs|e6];
    [ | cbn [app]; flatten_trace; rewrite (app_nil_r pe); reflexivity ].
  cbn [app]. flatten_trace. reflexivity.
Qed.

(** X4.  How a submission ends, by what the collaborators answer.  If a
    call fails (the metadata, the payload, the address, the gas estimation,
    the message or the signature), the calls made are exactly those up to
    the failing one, in order, the failure line is printed once, last, and
    no status callback is left; the submission returns normally.  If they
    all succeed, all five calls are recorded in that order, the message going
    to the oracle with the estimated minimum as gas limit and value 0,
    nothing is printed, and exactly the status events that [signAndSend]
    answered are left to the callback.  Random draws and API handles are
    untouched. *)
Theorem submission_ends_in_two_ways (g : GearApi) (item : OracleUpdateValue)
  (w : world) :
  let action := UpdateValue (id item) (value item) in
  let message hex gas :=
    {| destination := Feeder.ORACLE_ADDRESS; payload := hex;
       gasLimit := min_limit gas; msg_value := 0 |} in
  let ends t js :=
    Feeder.updateOracleValue g item w
    = (Ok tt, mkWorld (trace w ++ Invoked item :: t) (pending w ++ js)
                      (randoms w) (submissions w)) in
  (forall e,
     getWasmMetadata g = Throw e ->
     ends [CalledGetWasmMetadata; ConsoleLog LogFailed] [])
  /\ (forall meta e,
        getWasmMetadata g = Ok meta ->
        CreateType_create g action meta = Throw e ->
        ends [CalledGetWasmMetadata; CalledCreateType action;
              ConsoleLog LogFailed] [])
  /\ (forall meta hex e,
        getWasmMetadata g = Ok meta ->
        CreateType_create g action meta = Ok hex ->
        decodeAddress g = Throw e ->
        ends [CalledGetWasmMetadata; CalledCreateType action;
              ConsoleLog LogFailed] [])
  /\ (forall meta hex sender e,
        getWasmMetadata g = Ok meta ->
        CreateType_create g action meta = Ok hex ->
        decodeAddress g = Ok sender ->
        calculateGas_handle g sender Feeder.ORACLE_ADDRESS hex 0 true
        = Throw e ->
        ends [CalledGetWasmMetadata; CalledCreateType action;
              CalledCalculateGas hex; ConsoleLog LogFailed] [])
  /\ (forall meta hex sender gas e,
        getWasmMetadata g = Ok meta ->
        CreateType_create g action meta = Ok hex ->
        decodeAddress g = Ok sender ->
        calculateGas_handle g sender Feeder.ORACLE_ADDRESS hex 0 true
        = Ok gas ->
        message_send g (message hex gas) = Throw e ->
        ends [CalledGetWasmMetadata; CalledCreateType action;
              CalledCalculateGas hex; CalledMessageSend (message hex gas);
              ConsoleLog LogFailed] [])
  /\ (forall meta hex sender gas ext e,
        getWasmMetadata g = Ok meta ->
        CreateType_create g action meta = Ok hex ->
        decodeAddress g = Ok sender ->
        calculateGas_handle g sender Feeder.ORACLE_ADDRESS hex 0 true
        = Ok gas ->
        message_send g (message hex gas) = Ok ext ->
        signAndSend g ext = Throw e ->
        ends [CalledGetWasmMetadata; CalledCreateType action;
              CalledCalculateGas hex; CalledMessageSend (message hex gas);
              CalledSignAndSend ext; ConsoleLog LogFailed] [])
  /\ (forall meta hex sender gas ext evs,
        getWasmMetadata g = Ok meta ->
        CreateType_create g action meta = Ok hex ->
        decodeAddress g = Ok sender ->
        calculateGas_handle g sender Feeder.ORACLE_ADDRESS hex 0 true
        = Ok gas ->
        message_send g (message hex gas) = Ok ext ->
        signAndSend g ext = Ok evs ->
        ends [CalledGetWasmMetadata; CalledCreateType action;
              CalledCalculateGas hex; CalledMessageSend (message hex gas);
              CalledSignAndSend ext]
             (map (StatusCallback item) evs)).
Proof.
  intros action message ends. subst action message ends. cbv beta.
  destruct w as [tr pe ra su].
  repeat match goal with |- _ /\ _ => split end; intros;
    run_submitter;
    repeat match goal with
           | H : _ = Ok _ |- _ => rewrite H; clear H; cbv beta iota
           | H : _ = Throw _ |- _ => rewrite H; clear H; cbv beta iota
           end;
    flatten_trace; rewrite ?(app_nil_r pe); reflexivity.
Qed.

Lemma submission_ends_in_two_ways_witness :
  Feeder.updateOracleValue Scenario.gas_failure Scenario.item7 start
  = (Ok tt,
     mkWorld (trace start
              ++ Invoked Scenario.item7
                 :: [CalledGetWasmMetadata;
                     CalledCreateType (UpdateValue (id Scenario.item7)
                                         (value Scenario.item7));
                     CalledCalculateGas "0x2a"; ConsoleLog LogFailed])
             (pending start ++ []) (randoms start) (submissions start)).
Proof.
  pose proof (submission_ends_in_two_ways Scenario.gas_failure
                Scenario.item7 start) as H.
  cbv zeta in H. destruct H as (_ & _ & _ & H & _).
  apply (H "meta" "0x2a" "0xd4" (Failure "gas")); reflexivity.
Defined.

End SubmitterFurther.

(* ================================================================== *)
(** * Further properties of the producer *)
(* ================================================================== *)

Section ProducerFurther.

Local Open Scope Z_scope.

Variable random_source : nat -> spec_float.
Variable api : nat -> GearApi.

Lemma actions_app (t u : list event) : actions (t ++ u) = actions t ++ actions u.
Proof. apply filter_app. Qed.

(** What a submission adds to a trace holds its own entry and no other. *)
Lemma submission_trace (g : GearApi) (item : OracleUpdateValue) :
  invocations (trace (snd (Feeder.updateOracleValue g item start))) = [item]
  /\ unhandled (trace (snd (Feeder.updateOracleValue g item start))) = [].
Proof.
  destruct (updateOracleValue_returns g item start)
    as (t & js & E & Hi & Hu & _).
  rewrite E. unfold start. cbn [snd trace]. rewrite app_nil_l.
  cbn [invocations unhandled]. rewrite Hi, Hu. split; reflexivity.
Qed.

(** One submission as both triggers start it, in full: the next random
    number, the next answers of the collaborators, and what the submitter
    adds. *)
Lemma submission_started_full (request : number) (w : world) :
  let item := {| id := request;
                 value := Feeder.getRandomNumber (random_source (randoms w))
                            9999999999999 |} in
  let sub := snd (Feeder.updateOracleValue (api (submissions w)) item start) in
  (random <- Math_random random_source ;;
   gearApi <- gearApi_now api ;;
   detached
     (Feeder.updateOracleValue gearApi
        {| id := request;
           value := Feeder.getRandomNumber random 9999999999999 |})) w
  = (Ok tt, mkWorld (trace w ++ trace sub) (pending w ++ pending sub)
                    (S (randoms w)) (S (submissions w))).
Proof.
  intros item sub.
  unfold bind at 1. unfold Math_random at 1. cbv beta iota.
  unfold bind at 1. unfold gearApi_now at 1. cbv beta iota.
  cbn [randoms submissions trace pending].
  unfold detached, try_catch. rewrite updateOracleValue_frame.
  reflexivity.
Qed.

(** The handler on a payload that decodes, in full. *)
Lemma handler_run (dst : string) (p : list byte) (r : Feeder.PendingRequest)
  (w : world) :
  Feeder.decodeRequest p = Ok (Some r) ->
  let item := {| id := Feeder.request_id r;
                 value := Feeder.getRandomNumber (random_source (randoms w))
                            9999999999999 |} in
  let sub := snd (Feeder.updateOracleValue (api (submissions w)) item start) in
  Feeder.onUserMessageSent random_source api Feeder.ORACLE_ADDRESS dst p w
  = (Ok tt,
     mkWorld (trace w
              ++ [ ConsoleLog LogNewRequest;
                   ConsoleLog (LogFrom Feeder.ORACLE_ADDRESS);
                   ConsoleLog (LogTo dst);
                   ConsoleLog (LogID (Feeder.request_id r));
                   ConsoleLog (LogCaller (Feeder.caller r)) ]
              ++ trace sub)
             (pending w ++ pending sub) (S (randoms w)) (S (submissions w))).
Proof.
  intros H item sub. unfold Feeder.onUserMessageSent.
  rewrite String.eqb_refl, H. cbn [negb].
  do 5 (unfold bind at 1; unfold console_log at 1; unfold emit at 1;
        cbv beta iota; cbn [trace pending randoms submissions]).
  rewrite submission_started_full.
  cbn [trace pending randoms submissions]. flatten_trace. reflexivity.
Qed.

End ProducerFurther.

Section ProducerProperties.

Local Open Scope Z_scope.

(** X5.  A well-formed payload for an id below [2^53], end to end: the
    handler prints the five lines of the request, with the id and with one
    number per caller byte, then draws one random number and starts one
    submission for that id with a value below the bound. *)
Theorem request_is_printed_and_submitted
  (random_source : nat -> spec_float) (api : nat -> GearApi)
  (dst : string) (request : Z) (caller_bytes : list byte) (w : world) :
  0 <= request < two53 ->
  unit_double (random_source (randoms w)) = true ->
  exists w' v rest,
    Feeder.onUserMessageSent random_source api Feeder.ORACLE_ADDRESS dst
      (new_request request caller_bytes) w = (Ok tt, w')
    /\ trace w'
       = trace w
         ++ [ ConsoleLog LogNewRequest;
              ConsoleLog (LogFrom Feeder.ORACLE_ADDRESS);
              ConsoleLog (LogTo dst);
              ConsoleLog (LogID (Num request));
              ConsoleLog (LogCaller (numbers_of caller_bytes));
              Invoked {| id := Num request; value := Num v |} ]
         ++ rest
    /\ 0 <= v < 9999999999999
    /\ invocations rest = [] /\ unhandled rest = []
    /\ randoms w' = S (randoms w) /\ submissions w' = S (submissions w).
Proof.
  intros Hid Hr.
  assert (Hd : Feeder.decodeRequest (new_request request caller_bytes)
               = Ok (Some {| Feeder.request_id := Num request;
                             Feeder.caller := numbers_of caller_bytes |})).
  { rewrite decodeRequest_new_request, to_number_small;
      [ reflexivity | assumption | ].
    unfold two53 in Hid.
    split; [ lia | ]. apply Z.lt_trans with (2 ^ 53); [ lia | reflexivity ]. }
  destruct (getRandomNumber_range _ Hr) as (v & Ev & Hv).
  pose proof (handler_run random_source api dst _ _ w Hd) as E.
  cbv zeta in E.
  cbn [Feeder.request_id Feeder.caller] in E. rewrite Ev in E.
  match type of E with
  | context [Feeder.updateOracleValue ?g ?item start] =>
      destruct (updateOracleValue_returns g item start)
        as (t & js & Es & Hi & Hu & _)
  end.
  rewrite Es in E. unfold start in E. cbn [snd trace pending] in E.
  rewrite app_nil_l in E.
  eexists _, v, t. split; [ exact E | ].
  cbn [trace randoms submissions]. flatten_trace.
  repeat split; try assumption; lia.
Qed.

Lemma request_is_printed_and_submitted_witness :
  exists w' v rest,
    Feeder.onUserMessageSent (fun _ => Scenario.half)
      (fun _ => Scenario.healthy) Feeder.ORACLE_ADDRESS "0xd4"
      (new_request 42 Scenario.caller32) start = (Ok tt, w')
    /\ trace w'
       = trace start
         ++ [ ConsoleLog LogNewRequest;
              ConsoleLog (LogFrom Feeder.ORACLE_ADDRESS);
              ConsoleLog (LogTo "0xd4");
              ConsoleLog (LogID (Num 42));
              ConsoleLog (LogCaller (numbers_of Scenario.caller32));
              Invoked {| id := Num 42; value := Num v |} ]
         ++ rest
    /\ 0 <= v < 9999999999999
    /\ invocations rest = [] /\ unhandled rest = []
    /\ randoms w' = S (randoms start) /\ submissions w' = S (submissions start).
Proof.
  apply (request_is_printed_and_submitted (fun _ => Scenario.half)
           (fun _ => Scenario.healthy) "0xd4" 42 Scenario.caller32 start).
  - unfold two53. lia.
  - reflexivity.
Defined.

(** X6.  The caller bytes reach the console and nothing else: two payloads
    of the oracle with discriminant 0 that agree on bytes 1-8 make the
    handler do the same things (the same calls to the collaborators with the
    same arguments, the same callbacks, the same draws), whatever their
    other bytes; only printed lines can differ. *)
Theorem caller_reaches_the_console_only
  (random_source : nat -> spec_float) (api : nat -> GearApi)
  (dst : string) (p q : list byte) (w : world) :
  nth_error p 0 = Some x00 -> nth_error q 0 = Some x00 ->
  (9 <= List.length p)%nat -> (9 <= List.length q)%nat ->
  slice p 1 9 = slice q 1 9 ->
  let run := Feeder.onUserMessageSent random_source api Feeder.ORACLE_ADDRESS
               dst in
  fst (run p w) = Ok tt /\ fst (run q w) = Ok tt
  /\ actions (trace (snd (run p w))) = actions (trace (snd (run q w)))
  /\ pending (snd (run p w)) = pending (snd (run q w))
  /\ randoms (snd (run p w)) = randoms (snd (run q w))
  /\ submissions (snd (run p w)) = submissions (snd (run q w)).
Proof.
  intros Hp Hq Lp Lq Heq run. unfold run.
  destruct (payload_shape p Hp) as (p' & ->).
  destruct (payload_shape q Hq) as (q' & ->).
  cbn [List.length] in Lp, Lq.
  replace (slice (x00 :: p') 1 9) with (firstn 8 p') in Heq by reflexivity.
  replace (slice (x00 :: q') 1 9) with (firstn 8 q') in Heq by reflexivity.
  assert (Dp := decodeRequest_zero p'). assert (Dq := decodeRequest_zero q').
  destruct (Nat.leb_spec 8 (List.length p')); [ | lia ].
  destruct (Nat.leb_spec 8 (List.length q')); [ | lia ].
  rewrite Heq in Dp.
  rewrite (handler_run random_source api dst _ _ w Dp),
    (handler_run random_source api dst _ _ w Dq).
  cbn [fst snd trace pending randoms submissions Feeder.request_id].
  repeat split.
  rewrite !actions_app. reflexivity.
Qed.

Lemma caller_reaches_the_console_only_witness :
  actions
    (trace (snd (Feeder.onUserMessageSent (fun _ => Scenario.half)
                   (fun _ => Scenario.healthy) Feeder.ORACLE_ADDRESS "0xd4"
                   (new_request 42 Scenario.caller32) start)))
  = actions
      (trace (snd (Feeder.onUserMessageSent (fun _ => Scenario.half)
                     (fun _ => Scenario.healthy) Feeder.ORACLE_ADDRESS "0xd4"
                     Scenario.high_bytes_set start))).
Proof.
  apply (caller_reaches_the_console_only (fun _ => Scenario.half)
           (fun _ => Scenario.healthy) "0xd4"
           (new_request 42 Scenario.caller32) Scenario.high_bytes_set start).
  - reflexivity.
  - reflexivity.
  - cbn. lia.
  - cbn. lia.
  - reflexivity.
Defined.

End ProducerProperties.

(* ================================================================== *)
(** * Whole runs of the producer *)
(* ================================================================== *)

Section ProducerRuns.

Variable random_source : nat -> spec_float.
Variable api : nat -> GearApi.

Lemma extends_refl (w : world) : extends random_source w w [].
Proof.
  unfold extends. cbn [List.length seq map]. rewrite !app_nil_r, !Nat.add_0_r.
  repeat split.
Qed.

Lemma extends_trans (w w1 w2 : world) (l1 l2 : list number) :
  extends random_source w w1 l1 -> extends random_source w1 w2 l2 ->
  extends random_source w w2 (l1 ++ l2).
Proof.
  intros (A1 & B1 & C1 & D1) (A2 & B2 & C2 & D2). unfold extends.
  rewrite A2, A1, B2, B1, C2, C1, D2, D1, length_app, seq_app, map_app.
  rewrite <- !app_assoc. repeat split; lia.
Qed.

(** A step that adds to the trace no entry of a submission and leaves the
    counters alone. *)
Lemma extends_quiet (w w' : world) (t : list event) :
  trace w' = trace w ++ t -> invocations t = [] ->
  randoms w' = randoms w -> submissions w' = submissions w ->
  extends random_source w w' [].
Proof.
  intros Ht Hi Hr Hs. unfold extends.
  rewrite Ht, invocations_app, Hi, Hr, Hs.
  cbn [List.length seq map]. rewrite !app_nil_r, !Nat.add_0_r.
  repeat split.
Qed.

Lemma extends_submission (request : number) (w : world) :
  extends random_source w
    (snd ((random <- Math_random random_source ;;
           gearApi <- gearApi_now api ;;
           detached
             (Feeder.updateOracleValue gearApi
                {| id := request;
                   value := Feeder.getRandomNumber random 9999999999999 |}))
            w))
    [request].
Proof.
  rewrite submission_started_full. unfold extends.
  cbn [snd trace randoms submissions List.length seq map].
  rewrite invocations_app.
  destruct (submission_trace (api (submissions w))
              {| id := request;
                 value := Feeder.getRandomNumber (random_source (randoms w))
                            9999999999999 |}) as (-> & _).
  rewrite !map_app. cbn [map id value]. repeat split; lia.
Qed.

(** The startup batch. *)
Lemma extends_batch (items : list Feeder.OracleQueueItem) (w : world) :
  exists w',
    forM items
      (fun item =>
         random <- Math_random random_source ;;
         gearApi <- gearApi_now api ;;
         detached
           (Feeder.updateOracleValue gearApi
              {| id := Feeder.item_id item;
                 value := Feeder.getRandomNumber random 9999999999999 |})) w
    = (Ok tt, w')
    /\ extends random_source w w' (map Feeder.item_id items).
Proof.
  revert w. induction items as [|item items IH]; intro w.
  - exists w. split; [ reflexivity | apply extends_refl ].
  - cbn [forM map]. unfold bind at 1.
    pose proof (extends_submission (Feeder.item_id item) w) as Hx.
    rewrite submission_started_full in *. cbn [snd] in Hx.
    match goal with
    | |- context [forM items _ ?w1] =>
        destruct (IH w1) as (w2 & E2 & Hx2); exists w2; rewrite E2
    end.
    split; [ reflexivity | ].
    exact (extends_trans _ _ _ [_] _ Hx Hx2).
Qed.

(** The continuation of the state read, in a turn of its own. *)
Lemma extends_reconciliation (rq : result (list (string * string))) (w : world) :
  extends random_source w
    (Host.turn (Feeder.reconciliation random_source api rq) w)
    (queue_ids rq).
Proof.
  unfold Host.turn, detached at 1, try_catch at 1.
  unfold Feeder.reconciliation, Feeder.getOracleRequestsQueue.
  unfold detached at 1. unfold try_catch at 1.
  unfold bind at 1. unfold bind at 1. unfold now, ret.
  destruct rq as [queue|e]; cbn [queue_ids].
  - match goal with
    | |- context [forM ?items ?f w] =>
        destruct (extends_batch items w) as (w' & E & Hx)
    end.
    rewrite E. cbn [snd].
    replace (map (fun entry : string * string => parseInt (fst entry)) queue)
      with (map Feeder.item_id
              (map (fun oracleQueueItem : string * string =>
                      let '(id, caller) := oracleQueueItem in
                      {| Feeder.item_id := parseInt id;
                         Feeder.item_caller := caller |}) queue)).
    + exact Hx.
    + rewrite map_map. apply map_ext. intros [i c]. reflexivity.
  - cbn [snd emit].
    apply (extends_quiet _ _ [Unhandled e]); reflexivity.
Qed.

Lemma extends_started (w : world) :
  extends random_source w (Host.turn (console_log LogStarted) w) [].
Proof.
  apply (extends_quiet _ _ [ConsoleLog LogStarted]); reflexivity.
Qed.

(** The events of one block, up to the first that makes the handler
    throw. *)
Lemma onBlock_extends (block : list Host.UserMessageSent) (w : world) :
  exists r w',
    Host.onBlock random_source api block w = (r, w')
    /\ extends random_source w w' (block_ids block).
Proof.
  revert w. induction block as [|ev block IH]; intro w.
  - exists (Ok tt), w. split; [ reflexivity | apply extends_refl ].
  - unfold Host.onBlock in *. cbn [forM block_ids]. unfold bind at 1.
    destruct (String.eqb_spec (Host.source ev) Feeder.ORACLE_ADDRESS)
      as [Es | Es].
    + rewrite Es.
      destruct (Feeder.decodeRequest (Host.data ev)) as [[r|]|e] eqn:Ed.
      * rewrite (handler_run random_source api _ _ _ w Ed).
        pose proof (extends_submission (Feeder.request_id r) w) as Hx.
        rewrite submission_started_full in Hx. cbn [snd] in Hx.
        match goal with
        | |- context [forM block _ ?w1] =>
            destruct (IH w1) as (r2 & w2 & E2 & Hx2); exists r2, w2;
            rewrite E2; split; [ reflexivity | ];
            apply (extends_trans _ w1 _ [_] _); [ | exact Hx2 ]
        end.
        destruct Hx as (A & B & C & D). unfold extends in *.
        cbn [trace randoms submissions] in *.
        rewrite !invocations_app in *. cbn [invocations app] in *.
        repeat split; assumption.
      * unfold Feeder.onUserMessageSent at 1. rewrite String.eqb_refl, Ed.
        cbn [negb]. unfold ret at 1. apply IH.
      * rewrite (handler_throws random_source api _ _ _ w Ed).
        exists (Throw e), w. split; [ reflexivity | apply extends_refl ].
    + rewrite (handler_other_source random_source api _ _ _ w Es).
      apply IH.
Qed.

Lemma extends_block (block : list Host.UserMessageSent) (w : world) :
  extends random_source w
    (Host.turn (Host.onBlock random_source api block) w) (block_ids block).
Proof.
  unfold Host.turn, detached, try_catch.
  destruct (onBlock_extends block w) as ([[]|e] & w' & -> & Hx); cbn [snd].
  - exact Hx.
  - rewrite <- (app_nil_r (block_ids block)).
    apply (extends_trans _ w' _ _ []); [ exact Hx | ].
    apply (extends_quiet _ _ [Unhandled e]); reflexivity.
Qed.

(** The status callbacks start no submission, whether the process lives
    through them or not. *)
Lemma live_callbacks_delivered (goes_on : error -> bool) (js : list job)
  (w : world) :
  exists t,
    fold_left (fun w j => Host.live_turn goes_on (Host.run_job j) w) js w
    = mkWorld (trace w ++ t) (pending w) (randoms w) (submissions w)
    /\ invocations t = [].
Proof.
  revert w. induction js as [|j js IH]; intro w.
  - exists []. rewrite app_nil_r. destruct w; split; reflexivity.
  - cbn [fold_left]. unfold Host.live_turn at 2.
    destruct (Host.alive goes_on w).
    + destruct (callback_turn j w) as (e & -> & He).
      destruct (IH (mkWorld (trace w ++ [e]) (pending w) (randoms w)
                            (submissions w))) as (t & -> & Ht).
      cbn [trace pending randoms submissions].
      exists (e :: t). rewrite <- app_assoc. split; [ reflexivity | ].
      change (e :: t) with ([e] ++ t). rewrite invocations_app, He, Ht.
      reflexivity.
    + apply IH.
Qed.

Lemma extends_live_deliver (goes_on : error -> bool) (w : world) :
  extends random_source w (Host.live_deliver goes_on w) [].
Proof.
  unfold Host.live_deliver. destruct (Host.alive goes_on w);
    [ | apply extends_refl ].
  destruct (live_callbacks_delivered goes_on (pending w)
              (mkWorld (trace w) [] (randoms w) (submissions w)))
    as (t & -> & Ht).
  apply (extends_quiet _ _ t); try reflexivity. exact Ht.
Qed.

End ProducerRuns.

(** A run of the producer adds the contributions of its turns, one after
    the other, as far as the process gets. *)
Section Chain.

Context {X : Type}.
Variable goes_on : error -> bool.
Variable grows : world -> world -> list X -> Prop.

Hypothesis grows_refl : forall w, grows w w [].
Hypothesis grows_trans :
  forall w w1 w2 l1 l2,
    grows w w1 l1 -> grows w1 w2 l2 -> grows w w2 (l1 ++ l2).
Hypothesis grows_deliver : forall w, grows w (Host.live_deliver goes_on w) [].

Lemma upto_start (w : world) : upto goes_on grows w w [].
Proof. exists [], []. split; [ reflexivity | ]. split; auto. Qed.

Lemma upto_step (task : M unit) (w0 w : world) (l1 l2 : list X) :
  upto goes_on grows w0 w l1 ->
  grows w (Host.turn task w) l2 ->
  upto goes_on grows w0 (Host.live_step goes_on task w) (l1 ++ l2).
Proof.
  intros (done & rest & -> & G & A) Ht.
  unfold Host.live_step, Host.live_turn.
  destruct (Host.alive goes_on w) eqn:Ea.
  - rewrite (A eq_refl), app_nil_r in *.
    exists (done ++ l2), []. rewrite app_nil_r.
    split; [ reflexivity | ]. split; [ | reflexivity ].
    rewrite <- (app_nil_r l2).
    apply (grows_trans _ w); [ exact G | ].
    apply (grows_trans _ (Host.turn task w)); [ exact Ht | ].
    apply grows_deliver.
  - unfold Host.live_deliver. rewrite Ea.
    exists done, (rest ++ l2). rewrite app_assoc.
    split; [ reflexivity | ]. split; [ exact G | ].
    rewrite Ea. discriminate.
Qed.

Variable random_source : nat -> spec_float.
Variable api : nat -> GearApi.
Variable of_block : list Host.UserMessageSent -> list X.

Hypothesis grows_block :
  forall block w,
    grows w (Host.turn (Host.onBlock random_source api block) w)
          (of_block block).

Lemma upto_blocks (blocks : list (list Host.UserMessageSent))
  (w0 w : world) (l : list X) :
  upto goes_on grows w0 w l ->
  upto goes_on grows w0
    (fold_left
       (fun w block =>
          Host.live_step goes_on (Host.onBlock random_source api block) w)
       blocks w)
    (l ++ flat_map of_block blocks).
Proof.
  revert w l. induction blocks as [|block blocks IH]; intros w l H.
  - cbn [fold_left flat_map]. rewrite app_nil_r. exact H.
  - cbn [fold_left flat_map]. rewrite app_assoc.
    apply IH. apply upto_step; [ exact H | apply grows_block ].
Qed.

Lemma upto_producer (rq : result (list (string * string)))
  (of_read : list X) (before after : list (list Host.UserMessageSent)) :
  (forall w, grows w (Host.turn (console_log LogStarted) w) []) ->
  (forall w,
     grows w (Host.turn (Feeder.reconciliation random_source api rq) w)
           of_read) ->
  upto goes_on grows start
    (Host.producer goes_on random_source api rq before after)
    (flat_map of_block before ++ of_read ++ flat_map of_block after).
Proof.
  intros Hs Hr. unfold Host.producer.
  rewrite app_assoc. apply upto_blocks.
  apply upto_step; [ | apply Hr ].
  apply (upto_blocks before start _ []).
  apply (upto_step _ start start [] []); [ apply upto_start | apply Hs ].
Qed.

End Chain.

Section ProducerRunProperties.

Local Open Scope Z_scope.

Lemma producer_reaches
  (goes_on : error -> bool)
  (random_source : nat -> spec_float) (api : nat -> GearApi)
  (rq : result (list (string * string)))
  (before after : list (list Host.UserMessageSent)) :
  upto goes_on (extends random_source) start
    (Host.producer goes_on random_source api rq before after)
    (flat_map block_ids before ++ queue_ids rq ++ flat_map block_ids after).
Proof.
  apply upto_producer.
  - apply extends_refl.
  - apply extends_trans.
  - apply extends_live_deliver.
  - apply extends_block.
  - apply extends_started.
  - apply extends_reconciliation.
Qed.

(** The process at work: a fault in a block costs the rest of the block; a
    failed state read costs the rest of the run when the host ends the
    process on it; a block that arrives before the state read settles is
    handled first. *)
Example block_is_cut_by_a_fault :
  let final :=
    Host.producer (fun _ => true) (fun _ => Scenario.half)
      (fun _ => Scenario.healthy) (Ok [])
      [] [[cut_payload; request42]; [request42]] in
  map id (invocations (trace final)) = [Num 42]
  /\ unhandled (trace final) = [RangeError].
Proof. split; vm_compute; reflexivity. Qed.

Example failed_read_ends_the_process :
  let final :=
    Host.producer (fun _ => false) (fun _ => Scenario.half)
      (fun _ => Scenario.healthy) (Throw (Failure "state unavailable"))
      [[request42]] [[request42]; [request42]] in
  map id (invocations (trace final)) = [Num 42]
  /\ unhandled (trace final) = [Failure "state unavailable"]
  /\ Host.alive (fun _ => false) final = false.
Proof. split; [ | split ]; vm_compute; reflexivity. Qed.

Example block_before_the_state_read :
  map id
    (invocations
       (trace (Host.producer (fun _ => false) (fun _ => Scenario.half)
                 (fun _ => Scenario.healthy) (Ok [("7", "0xd4")])
                 [[request42]] [])))
  = [Num 42; Num 7].
Proof. vm_compute. reflexivity. Qed.

(** With a host that lets every error pass, the state read settling before
    the first block and every block holding one event, the run is the plain
    sequence of steps, one per event. *)
Lemma alive_always (w : world) : Host.alive (fun _ => true) w = true.
Proof.
  unfold Host.alive. apply forallb_forall. intros [] _; reflexivity.
Qed.

Lemma live_step_always (task : M unit) (w : world) :
  Host.live_step (fun _ => true) task w = Host.step task w.
Proof.
  unfold Host.live_step, Host.step, Host.live_turn, Host.live_deliver,
    Host.deliver.
  rewrite !alive_always.
  generalize (mkWorld (trace (Host.turn task w)) []
                      (randoms (Host.turn task w))
                      (submissions (Host.turn task w))).
  induction (pending (Host.turn task w)) as [|j js IH]; intro w0;
    [ reflexivity | ].
  cbn [fold_left]. rewrite IH. unfold Host.live_turn.
  rewrite alive_always. reflexivity.
Qed.

Lemma producer_one_event_per_block
  (random_source : nat -> spec_float) (api : nat -> GearApi)
  (rq : result (list (string * string)))
  (events : list Host.UserMessageSent) :
  Host.producer (fun _ => true) random_source api rq []
    (map (fun ev => [ev]) events)
  = fold_left
      (fun w ev =>
         Host.step (Feeder.onUserMessageSent random_source api
                      (Host.source ev) (Host.dest ev) (Host.data ev)) w)
      events
      (Host.step (console_log LogStarted ;;
                  Feeder.reconciliation random_source api rq) start).
Proof.
  unfold Host.producer. cbn [fold_left]. rewrite !live_step_always.
  assert (E0 : Host.step (Feeder.reconciliation random_source api rq)
                 (Host.step (console_log LogStarted) start)
               = Host.step (console_log LogStarted ;;
                            Feeder.reconciliation random_source api rq)
                   start).
  { unfold Host.step at 2. unfold Host.step at 1. unfold Host.step at 1.
    f_equal. }
  rewrite E0.
  generalize (Host.step (console_log LogStarted ;;
                         Feeder.reconciliation random_source api rq) start).
  induction events as [|ev events IH]; intro w; [ reflexivity | ].
  cbn [map fold_left]. rewrite live_step_always.
  replace (Host.step (Host.onBlock random_source api [ev]) w)
    with (Host.step (Feeder.onUserMessageSent random_source api
                       (Host.source ev) (Host.dest ev) (Host.data ev)) w).
  - apply IH.
  - unfold Host.step. f_equal.
    unfold Host.turn, detached, try_catch, Host.onBlock.
    cbn [forM]. unfold bind, ret.
    destruct (Feeder.onUserMessageSent _ _ _ _ _ w) as [[[]|e] w1];
      reflexivity.
Qed.

(** X7.  A run of the producer, whatever the host does with escaped errors
    and wherever the state read settles among the blocks.  The submissions
    started are, in order, a first part of this list, and all of it if the
    process is still there at the end: for each block that arrives before
    the state read settles, one per event of the oracle that decodes to a
    request, up to the first event of the block on which the decoder
    throws; then one per entry of the queue read (none if the read
    fails); then the same for the blocks that arrive afterwards.  Each
    submission takes one random draw and one API handle. *)
Theorem producer_submits_in_schedule_order
  (goes_on : error -> bool)
  (random_source : nat -> spec_float) (api : nat -> GearApi)
  (requests_queue : result (list (string * string)))
  (before after : list (list Host.UserMessageSent)) :
  let final :=
    Host.producer goes_on random_source api requests_queue before after in
  let started := invocations (trace final) in
  (exists rest,
     flat_map block_ids before ++ queue_ids requests_queue
       ++ flat_map block_ids after
     = map id started ++ rest
     /\ (Host.alive goes_on final = true -> rest = []))
  /\ randoms final = List.length started
  /\ submissions final = List.length started.
Proof.
  intros final started.
  destruct (producer_reaches goes_on random_source api requests_queue
              before after)
    as (done & rest & E & (A & _ & C & D) & Ha).
  fold final in A, C, D, Ha. fold started in A.
  change (map id started = done) in A.
  change (randoms final = List.length done) in C.
  change (submissions final = List.length done) in D.
  subst done. rewrite length_map in C, D.
  split; [ | split; assumption ].
  exists rest. split; assumption.
Qed.

(** X8.  Over a whole run of the producer, the [k]-th submission carries the
    value computed from the [k]-th random draw; when every draw is a double
    in [0, 1), every submitted value is an integer in
    [0, 9999999999999). *)
Theorem producer_values_below_bound
  (goes_on : error -> bool)
  (random_source : nat -> spec_float) (api : nat -> GearApi)
  (requests_queue : result (list (string * string)))
  (before after : list (list Host.UserMessageSent)) :
  (forall k, unit_double (random_source k) = true) ->
  let started :=
    invocations
      (trace (Host.producer goes_on random_source api requests_queue
                before after)) in
  map value started
  = map (fun k => Feeder.getRandomNumber (random_source k) 9999999999999)
        (seq 0 (List.length started))
  /\ Forall (fun item => below 9999999999999 (value item)) started.
Proof.
  intros Hr started.
  destruct (producer_reaches goes_on random_source api requests_queue
              before after)
    as (done & rest & _ & (A & B & _ & _) & _).
  fold started in A, B.
  change (map id started = done) in A.
  change (map value started
          = map (fun k => Feeder.getRandomNumber (random_source k)
                            9999999999999)
                (seq 0 (List.length done)))
    in B.
  assert (L : List.length started = List.length done).
  { rewrite <- A, length_map. reflexivity. }
  rewrite L. split; [ exact B | ].
  apply Forall_map with (f := value) (P := below 9999999999999).
  rewrite B. apply Forall_map, Forall_forall. intros k _.
  apply getRandomNumber_range, Hr.
Qed.

Lemma producer_values_below_bound_witness :
  let started :=
    invocations
      (trace (Host.producer (fun _ => false) (fun _ => Scenario.half)
                (fun _ => Scenario.healthy) (Ok [("7", "0xd4")])
                [[request42; other_kind]] [[foreign; request42]])) in
  map value started
  = map (fun k => Feeder.getRandomNumber Scenario.half 9999999999999)
        (seq 0 (List.length started))
  /\ Forall (fun item => below 9999999999999 (value item)) started.
Proof.
  apply (producer_values_below_bound (fun _ => false)
           (fun _ => Scenario.half)
           (fun _ => Scenario.healthy) (Ok [("7", "0xd4")])
           [[request42; other_kind]] [[foreign; request42]]).
  intro k. reflexivity.
Defined.

End ProducerRunProperties.

(* ================================================================== *)
(** * A submission that the node accepts or refuses *)
(* ================================================================== *)

Section SubmitterStatus.

Local Open Scope Z_scope.

Lemma log_lines_status (item : OracleUpdateValue)
  (evs : list SubmittableResult) :
  log_lines (map (status_entry item) evs)
  = map (fun _ => LogUpdateValue (id item) (value item))
        (filter (fun ev => negb (isError ev)) evs).
Proof.
  induction evs as [|[[|]] evs IH]; cbn; [ | | f_equal ]; auto.
Qed.

Lemma unhandled_status (item : OracleUpdateValue)
  (evs : list SubmittableResult) :
  unhandled (map (status_entry item) evs)
  = map (fun _ => Error "Can't send tx") (filter isError evs).
Proof.
  induction evs as [|[[|]] evs IH]; cbn; [ | f_equal | ]; auto.
Qed.

(** X9.  A submission whose calls all succeed: the calls appear in the
    order metadata, payload, gas estimation, message, signature; the
    message goes to the oracle with the estimated minimum as gas limit and
    value 0.  Then every status event of the transaction gets its own
    entry: a [[+] UpdateValue] line with the id and the value if it reports
    no error, an error that nobody handles if it does.  The failure line is
    never printed. *)
Theorem accepted_submission_reports_every_status
  (g : GearApi) (item : OracleUpdateValue) (w : world)
  (meta : Metadata) (hex : Hex) (sender : string) (gas : GasInfo)
  (ext : Message) (evs : list SubmittableResult) :
  pending w = [] ->
  getWasmMetadata g = Ok meta ->
  CreateType_create g (UpdateValue (id item) (value item)) meta = Ok hex ->
  decodeAddress g = Ok sender ->
  calculateGas_handle g sender Feeder.ORACLE_ADDRESS hex 0 true = Ok gas ->
  message_send g {| destination := Feeder.ORACLE_ADDRESS; payload := hex;
                    gasLimit := min_limit gas; msg_value := 0 |} = Ok ext ->
  signAndSend g ext = Ok evs ->
  let final := Host.step (Feeder.updateOracleValue g item) w in
  trace final
  = trace w
    ++ [ Invoked item;
         CalledGetWasmMetadata;
         CalledCreateType (UpdateValue (id item) (value item));
         CalledCalculateGas hex;
         CalledMessageSend {| destination := Feeder.ORACLE_ADDRESS;
                              payload := hex; gasLimit := min_limit gas;
                              msg_value := 0 |};
         CalledSignAndSend ext ]
    ++ map (status_entry item) evs
  /\ log_lines (trace final)
     = log_lines (trace w)
       ++ map (fun _ => LogUpdateValue (id item) (value item))
              (filter (fun ev => negb (isError ev)) evs)
  /\ unhandled (trace final)
     = unhandled (trace w)
       ++ map (fun _ => Error "Can't send tx") (filter isError evs)
  /\ pending final = [].
Proof.
  intros Hp H1 H2 H3 H4 H5 H6 final.
  pose proof (acknowledgment_runs_outside_try g item w meta hex sender gas
                ext evs Hp H1 H2 H3 H4 H5 H6) as E.
  fold final in E.
  replace (map _ evs) with (map (status_entry item) evs) in E
    by (apply map_ext; intros [[|]]; reflexivity).
  split; [ exact E | ].
  rewrite E, !log_lines_app, !unhandled_app, log_lines_status,
    unhandled_status.
  split; [ reflexivity | ]. split; [ reflexivity | ].
  unfold final, Host.step.
  destruct (deliver_spec (Host.turn (Feeder.updateOracleValue g item) w))
    as (t & -> & _).
  reflexivity.
Qed.

Lemma accepted_submission_reports_every_status_witness :
  let final :=
    Host.step (Feeder.updateOracleValue Scenario.healthy Scenario.item7)
      start in
  trace final
  = trace start
    ++ [ Invoked Scenario.item7;
         CalledGetWasmMetadata;
         CalledCreateType (UpdateValue (id Scenario.item7)
                             (value Scenario.item7));
         CalledCalculateGas "0x2a";
         CalledMessageSend {| destination := Feeder.ORACLE_ADDRESS;
                              payload := "0x2a";
                              gasLimit := min_limit {| min_limit := 1000 |};
                              msg_value := 0 |};
         CalledSignAndSend Scenario.message7 ]
    ++ map (status_entry Scenario.item7) [ {| isError := false |} ]
  /\ log_lines (trace final)
     = log_lines (trace start)
       ++ map (fun _ => LogUpdateValue (id Scenario.item7)
                          (value Scenario.item7))
              (filter (fun ev => negb (isError ev)) [ {| isError := false |} ])
  /\ unhandled (trace final)
     = unhandled (trace start)
       ++ map (fun _ => Error "Can't send tx")
              (filter isError [ {| isError := false |} ])
  /\ pending final = [].
Proof.
  apply (accepted_submission_reports_every_status Scenario.healthy
           Scenario.item7 start "meta" "0x2a" "0xd4" {| min_limit := 1000 |}
           Scenario.message7 [ {| isError := false |} ]);
    reflexivity.
Defined.

End SubmitterStatus.

(* ================================================================== *)
(** * The queue snapshot reader *)
(* ================================================================== *)

Section Reader.

Local Open Scope Z_scope.

(** What follows the digits is not read. *)
Lemma parse_digits_stop (R : Z) (s1 : string) (c : ascii) (s2 : string)
  (acc : option Z) :
  digit_of c = None ->
  parse_digits R (s1 ++ String c s2)%string acc = parse_digits R s1 acc.
Proof.
  intro Hc. revert acc.
  induction s1 as [|a s1 IH]; intro acc; cbn [String.append parse_digits].
  - rewrite Hc. reflexivity.
  - destruct (digit_of a) as [d|]; [ | reflexivity ].
    destruct (d <? R); [ apply IH | reflexivity ].
Qed.

Lemma not_a_digit_not_x (c : ascii) :
  digit_of c = None -> c <> "x"%char /\ c <> "X"%char.
Proof.
  intro Hc. split; intro E; subst c; vm_compute in Hc; discriminate Hc.
Qed.

Lemma parseInt_digits_then (d : uint) (c : ascii) (s2 : string) :
  d <> Nil -> digit_of c = None ->
  parseInt (NilEmpty.string_of_uint d ++ String c s2)%string
  = parseInt (NilEmpty.string_of_uint d).
Proof.
  intros Hd Hc.
  assert (E1 : parseInt (NilEmpty.string_of_uint d)
               = match parse_digits 10 (NilEmpty.string_of_uint d) None with
                 | None => NaN
                 | Some m => to_number m
                 end).
  { destruct d as [|d|d|d|d|d|d|d|d|d|d]; try congruence;
      try reflexivity.
    destruct d; reflexivity. }
  assert (E2 : parseInt (NilEmpty.string_of_uint d ++ String c s2)%string
               = match parse_digits 10
                         (NilEmpty.string_of_uint d ++ String c s2)%string None
                 with
                 | None => NaN
                 | Some m => to_number m
                 end).
  { destruct (not_a_digit_not_x c Hc) as [Hx HX].
    destruct d as [|d|d|d|d|d|d|d|d|d|d]; try congruence;
      try reflexivity.
    destruct d; try reflexivity.
    cbn [NilEmpty.string_of_uint String.append].
    destruct c as [[|] [|] [|] [|] [|] [|] [|] [|]];
      try reflexivity; congruence. }
  rewrite E1, E2, parse_digits_stop by assumption. reflexivity.
Qed.

(** An id printed in decimal is read back whatever follows it, as long as
    that does not start with a digit or a letter. *)
Lemma parseInt_leading_decimal (n : Z) (suffix : string) :
  0 <= n -> no_digit_follows suffix = true ->
  parseInt (toString n ++ suffix)%string = to_number n.
Proof.
  intros Hn Hs. rewrite <- (parseInt_toString n Hn).
  destruct suffix as [|c s2].
  - f_equal. clear. induction (toString n) as [|a s IH]; cbn;
      [ reflexivity | f_equal; exact IH ].
  - cbn [no_digit_follows] in Hs.
    destruct (digit_of c) eqn:Hc; [ discriminate | ].
    unfold toString, NilZero.string_of_uint.
    assert (Hnil : N.to_uint (Z.to_N n) <> Nil).
    { destruct (Z.to_N n); cbn;
        [ discriminate | apply Unsigned.to_uint_nonnil ]. }
    destruct (N.to_uint (Z.to_N n)) eqn:E; try congruence;
      rewrite <- E; apply parseInt_digits_then; congruence.
Qed.

(** X10.  The queue snapshot reader on ids printed in decimal: every entry
    comes back in order with its caller untouched and, for an id below
    [2^53], with exactly that id, the world unchanged.  Text after the
    digits is dropped without notice when it starts with a character that
    is neither a digit nor a letter: of a grouped number such as [1,234]
    only the first group is read. *)
Theorem reader_reads_leading_decimal
  (queue : list (Z * string * string)) (w : world) :
  Forall (fun entry : Z * string * string =>
            0 <= fst (fst entry) < two53
            /\ no_digit_follows (snd (fst entry)) = true) queue ->
  Feeder.getOracleRequestsQueue (Ok (map printed_entry queue)) w
  = (Ok (map read_entry queue), w).
Proof.
  intro H. unfold Feeder.getOracleRequestsQueue, bind, now, ret.
  rewrite map_map. do 2 f_equal.
  induction H as [|[[n suffix] caller] queue [Hn Hs] _ IH]; cbn [map].
  - reflexivity.
  - rewrite IH. f_equal. cbn [printed_entry read_entry fst snd] in *.
    rewrite (parseInt_leading_decimal n suffix) by (assumption || lia).
    rewrite to_number_small by assumption. reflexivity.
Qed.

Lemma reader_reads_leading_decimal_witness :
  Feeder.getOracleRequestsQueue
    (Ok (map printed_entry [(1, ",234", "0xd4"); (42, "", "0xd5")])) start
  = (Ok (map read_entry [(1, ",234", "0xd4"); (42, "", "0xd5")]), start).
Proof.
  apply (reader_reads_leading_decimal
           [(1, ",234", "0xd4"); (42, "", "0xd5")] start).
  repeat constructor; cbn; unfold two53; lia.
Defined.

End Reader.

(* ================================================================== *)
(** * Startup reconciliation and the ids of the snapshot *)
(* ================================================================== *)

Section Reconciliation.

Local Open Scope Z_scope.





End Reconciliation.

(* ================================================================== *)
(** * The tick of the beacon variant *)
(* ================================================================== *)

Section BeaconTick.

Local Open Scope Z_scope.

(** What a submission of the beacon adds to the trace: no fetch, no other
    submission, nothing unhandled. *)
Lemma beacon_submitter_quiet (g : GearApi) (data : number * Random)
  (w : world) :
  exists t js,
    Beacon.updateOracleValue data g w
    = (Ok tt, mkWorld (trace w ++ InvokedBeacon (fst data) :: t)
                      (pending w ++ js) (randoms w) (submissions w))
    /\ fetches t = 0%nat /\ beacon_rounds t = [] /\ unhandled t = [].
Proof.
  destruct w as [tr pe ra su]. destruct data as [round random].
  run_submitter.
  destruct (getWasmMetadata g) as [meta|e1];
    [ | eexists _, []; flatten_trace; rewrite (app_nil_r pe);
        repeat split ].
  destruct (CreateType_create g _ meta) as [hex|e2];
    [ | eexists _, []; flatten_trace; rewrite (app_nil_r pe);
        repeat split ].
  destruct (decodeAddress g) as [sender|e3];
    [ | eexists _, []; flatten_trace; rewrite (app_nil_r pe);
        repeat split ].
  destruct (calculateGas_handle g sender _ hex 0 true) as [gas|e4];
    [ | eexists _, []; flatten_trace; rewrite (app_nil_r pe);
        repeat split ].
  destruct (message_send g _) as [ext|e5];
    [ | eexists _, []; flatten_trace; rewrite (app_nil_r pe);
        repeat split ].
  destruct (signAndSend g ext) as [evs|e6];
    [ | eexists _, []; flatten_trace; rewrite (app_nil_r pe);
        repeat split ].
  eexists _, _. flatten_trace. repeat split.
Qed.

End BeaconTick.

(** What the beacon's status callbacks leave behind, one entry each. *)
Lemma beacon_status_callbacks_run (round : number) (random : Random)
  (evs : list SubmittableResult) (w : world) :
  fold_left (fun w j => Host.turn (Host.run_job j) w)
    (map (BeaconStatusCallback round random) evs) w
  = mkWorld (trace w ++ map (beacon_status_entry round random) evs)
            (pending w) (randoms w) (submissions w).
Proof.
  revert w. induction evs as [|ev evs IH]; intro w; cbn [map fold_left].
  - rewrite app_nil_r. destruct w; reflexivity.
  - rewrite IH. destruct ev as [[|]]; cbn; flatten_trace; reflexivity.
Qed.

Section BeaconProperties.

Local Open Scope Z_scope.

(** X11.  The timer's callback, at any tick and in any state: it calls the
    fetch once; it starts a submission exactly when the fetch succeeded,
    and for the round that was fetched; and the only error that can leave
    it is the error of the fetch: whatever fails during the submission is
    caught there. *)
Theorem tick_submits_what_it_fetched
  (fetchRandomValue : nat -> result (number * Random))
  (api : nat -> GearApi) (n : nat) (w : world) :
  exists t,
    trace (Host.turn (Beacon.tick fetchRandomValue api n) w)
    = trace w ++ CalledFetchRandomValue :: t
    /\ fetches t = 0%nat
    /\ beacon_rounds t = match fetchRandomValue n with
                         | Ok data => [fst data]
                         | Throw _ => []
                         end
    /\ unhandled t = match fetchRandomValue n with
                     | Ok _ => []
                     | Throw e => [e]
                     end.
Proof.
  unfold Host.turn, detached, try_catch, Beacon.tick.
  unfold bind at 1. unfold call at 1. cbn [emit].
  destruct (fetchRandomValue n) as [data|e].
  - unfold bind at 1. unfold console_log, emit. cbv beta iota.
    unfold bind at 1. unfold gearApi_now at 1. cbv beta iota.
    cbn [trace pending randoms submissions].
    match goal with
    | |- context [Beacon.updateOracleValue ?d ?g ?w0] =>
        destruct (beacon_submitter_quiet g d w0)
          as (t1 & js & -> & Hf & Hb & Hu)
    end.
    cbn [snd trace]. flatten_trace. eexists. split; [ reflexivity | ].
    simpl fetches. simpl beacon_rounds. simpl unhandled.
    rewrite Hf, Hb, Hu. repeat split.
  - cbn [emit snd trace pending randoms submissions]. flatten_trace.
    eexists. split; [ reflexivity | ]. repeat split.
Qed.

(** X12.  How a submission of the beacon ends, by what the collaborators
    answer.  If a call fails with an error [e] (the metadata, the payload,
    the address, the gas estimation, the message or the signature), the
    calls made are exactly those up to the failing one, in order, and the
    one line printed, last, is the failure line carrying that very [e]; no
    status callback is left and the submission returns normally.  If they
    all succeed, all five calls are recorded in that order, nothing is printed
    and exactly the status events that [signAndSend] answered are left to
    the callback. *)
Theorem beacon_failure_line_carries_the_error
  (g : GearApi) (round : number) (random : Random) (w : world) :
  let action :=
    SetRandomValue round
      (nth_error (randomness random) 0) (nth_error (randomness random) 1)
      (signature random) (prevSignature random) in
  let message hex gas :=
    {| destination := Beacon.ORACLE_ADDRESS; payload := hex;
       gasLimit := min_limit gas; msg_value := 0 |} in
  let ends t js :=
    Beacon.updateOracleValue (round, random) g w
    = (Ok tt, mkWorld (trace w ++ InvokedBeacon round :: t) (pending w ++ js)
                      (randoms w) (submissions w)) in
  (forall e,
     getWasmMetadata g = Throw e ->
     ends [CalledGetWasmMetadata; ConsoleLog (LogFailedWith e)] [])
  /\ (forall meta e,
        getWasmMetadata g = Ok meta ->
        CreateType_create g action meta = Throw e ->
        ends [CalledGetWasmMetadata; CalledCreateType action;
              ConsoleLog (LogFailedWith e)] [])
  /\ (forall meta hex e,
        getWasmMetadata g = Ok meta ->
        CreateType_create g action meta = Ok hex ->
        decodeAddress g = Throw e ->
        ends [CalledGetWasmMetadata; CalledCreateType action;
              ConsoleLog (LogFailedWith e)] [])
  /\ (forall meta hex sender e,
        getWasmMetadata g = Ok meta ->
        CreateType_create g action meta = Ok hex ->
        decodeAddress g = Ok sender ->
        calculateGas_handle g sender Beacon.ORACLE_ADDRESS hex 0 true
        = Throw e ->
        ends [CalledGetWasmMetadata; CalledCreateType action;
              CalledCalculateGas hex; ConsoleLog (LogFailedWith e)] [])
  /\ (forall meta hex sender gas e,
        getWasmMetadata g = Ok meta ->
        CreateType_create g action meta = Ok hex ->
        decodeAddress g = Ok sender ->
        calculateGas_handle g sender Beacon.ORACLE_ADDRESS hex 0 true
        = Ok gas ->
        message_send g (message hex gas) = Throw e ->
        ends [CalledGetWasmMetadata; CalledCreateType action;
              CalledCalculateGas hex; CalledMessageSend (message hex gas);
              ConsoleLog (LogFailedWith e)] [])
  /\ (forall meta hex sender gas ext e,
        getWasmMetadata g = Ok meta ->
        CreateType_create g action meta = Ok hex ->
        decodeAddress g = Ok sender ->
        calculateGas_handle g sender Beacon.ORACLE_ADDRESS hex 0 true
        = Ok gas ->
        message_send g (message hex gas) = Ok ext ->
        signAndSend g ext = Throw e ->
        ends [CalledGetWasmMetadata; CalledCreateType action;
              CalledCalculateGas hex; CalledMessageSend (message hex gas);
              CalledSignAndSend ext; ConsoleLog (LogFailedWith e)] [])
  /\ (forall meta hex sender gas ext evs,
        getWasmMetadata g = Ok meta ->
        CreateType_create g action meta = Ok hex ->
        decodeAddress g = Ok sender ->
        calculateGas_handle g sender Beacon.ORACLE_ADDRESS hex 0 true
        = Ok gas ->
        message_send g (message hex gas) = Ok ext ->
        signAndSend g ext = Ok evs ->
        ends [CalledGetWasmMetadata; CalledCreateType action;
              CalledCalculateGas hex; CalledMessageSend (message hex gas);
              CalledSignAndSend ext]
             (map (BeaconStatusCallback round random) evs)).
Proof.
  intros action message ends. subst action message ends. cbv beta.
  destruct w as [tr pe ra su].
  repeat match goal with |- _ /\ _ => split end; intros;
    run_submitter;
    repeat match goal with
           | H : _ = Ok _ |- _ => rewrite H; clear H; cbv beta iota
           | H : _ = Throw _ |- _ => rewrite H; clear H; cbv beta iota
           end;
    flatten_trace; rewrite ?(app_nil_r pe); reflexivity.
Qed.

Lemma beacon_failure_line_carries_the_error_witness :
  Beacon.updateOracleValue Scenario.round9 Scenario.gas_failure start
  = (Ok tt,
     mkWorld (trace start
              ++ InvokedBeacon (Num 9)
                 :: [CalledGetWasmMetadata;
                     CalledCreateType
                       (SetRandomValue (Num 9)
                          (nth_error (randomness (snd Scenario.round9)) 0)
                          (nth_error (randomness (snd Scenario.round9)) 1)
                          (signature (snd Scenario.round9))
                          (prevSignature (snd Scenario.round9)));
                     CalledCalculateGas "0x2a";
                     ConsoleLog (LogFailedWith (Failure "gas"))])
             (pending start ++ []) (randoms start) (submissions start)).
Proof.
  pose proof (beacon_failure_line_carries_the_error Scenario.gas_failure
                (Num 9) (snd Scenario.round9) start) as H.
  cbv zeta in H. destruct H as (_ & _ & _ & H & _).
  apply (H "meta" "0x2a" "0xd4" (Failure "gas")); reflexivity.
Defined.

(** X13.  A tick that goes through, from the timer to the node: the fetch,
    the [New tick] line with the round, then the submission of that round,
    whose payload takes the first two entries of the randomness, the
    signature and the previous signature, whose message goes to the oracle
    with the estimated minimum as gas limit and value 0, and after it one
    entry per status event of the transaction.  Nothing stays pending. *)
Theorem tick_goes_through
  (fetchRandomValue : nat -> result (number * Random))
  (api : nat -> GearApi) (n : nat) (w : world)
  (round : number) (random : Random)
  (meta : Metadata) (hex : Hex) (sender : string) (gas : GasInfo)
  (ext : Message) (evs : list SubmittableResult) :
  let g := api (submissions w) in
  let action :=
    SetRandomValue round
      (nth_error (randomness random) 0) (nth_error (randomness random) 1)
      (signature random) (prevSignature random) in
  let message :=
    {| destination := Beacon.ORACLE_ADDRESS; payload := hex;
       gasLimit := min_limit gas; msg_value := 0 |} in
  pending w = [] ->
  fetchRandomValue n = Ok (round, random) ->
  getWasmMetadata g = Ok meta ->
  CreateType_create g action meta = Ok hex ->
  decodeAddress g = Ok sender ->
  calculateGas_handle g sender Beacon.ORACLE_ADDRESS hex 0 true = Ok gas ->
  message_send g message = Ok ext ->
  signAndSend g ext = Ok evs ->
  Host.step (Beacon.tick fetchRandomValue api n) w
  = mkWorld
      (trace w
       ++ [ CalledFetchRandomValue;
            ConsoleLog (LogNewTick round);
            InvokedBeacon round;
            CalledGetWasmMetadata;
            CalledCreateType action;
            CalledCalculateGas hex;
            CalledMessageSend message;
            CalledSignAndSend ext ]
       ++ map (beacon_status_entry round random) evs)
      [] (randoms w) (S (submissions w)).
Proof.
  intros g action message Hp Hf H1 H2 H3 H4 H5 H6.
  destruct w as [tr pe ra su]. cbn [pending] in Hp. subst pe.
  cbn [submissions] in g.
  unfold Host.step, Host.turn, detached, try_catch, Beacon.tick.
  unfold bind at 1. unfold call at 1. cbn [emit]. rewrite Hf.
  unfold bind at 1. unfold console_log, emit. cbv beta iota.
  unfold bind at 1. unfold gearApi_now at 1. cbv beta iota.
  cbn [trace pending randoms submissions fst]. fold g.
  match goal with
  | |- context [Beacon.updateOracleValue ?d g ?w0] =>
      assert (E : Beacon.updateOracleValue d g w0
                  = (Ok tt,
                     mkWorld
                       (tr ++ [ CalledFetchRandomValue;
                                ConsoleLog (LogNewTick round);
                                InvokedBeacon round;
                                CalledGetWasmMetadata;
                                CalledCreateType action;
                                CalledCalculateGas hex;
                                CalledMessageSend message;
                                CalledSignAndSend ext ])
                       (map (BeaconStatusCallback round random) evs)
                       ra (S su)))
  end.
  { run_submitter.
    rewrite H1. cbv beta iota. fold action. rewrite H2. cbv beta iota.
    rewrite H3. cbv beta iota. rewrite H4. cbv beta iota.
    fold message. rewrite H5. cbv beta iota. rewrite H6. cbv beta iota.
    flatten_trace. reflexivity. }
  rewrite E. cbn [snd]. unfold Host.deliver.
  cbn [trace pending randoms submissions].
  rewrite beacon_status_callbacks_run.
  cbn [trace pending randoms submissions].
  rewrite <- app_assoc. reflexivity.
Qed.

Lemma tick_goes_through_witness :
  Host.step (Beacon.tick (fun _ => Ok Scenario.round9)
               (fun _ => Scenario.healthy) 0) start
  = mkWorld
      (trace start
       ++ [ CalledFetchRandomValue;
            ConsoleLog (LogNewTick (Num 9));
            InvokedBeacon (Num 9);
            CalledGetWasmMetadata;
            CalledCreateType
              (SetRandomValue (Num 9)
                 (nth_error (randomness (snd Scenario.round9)) 0)
                 (nth_error (randomness (snd Scenario.round9)) 1)
                 (signature (snd Scenario.round9))
                 (prevSignature (snd Scenario.round9)));
            CalledCalculateGas "0x2a";
            CalledMessageSend
              {| destination := Beacon.ORACLE_ADDRESS; payload := "0x2a";
                 gasLimit := min_limit {| min_limit := 1000 |};
                 msg_value := 0 |};
            CalledSignAndSend Scenario.message7 ]
       ++ map (beacon_status_entry (Num 9) (snd Scenario.round9))
              [ {| isError := false |} ])
      [] (randoms start) (S (submissions start)).
Proof.
  apply (tick_goes_through (fun _ => Ok Scenario.round9)
           (fun _ => Scenario.healthy) 0 start (Num 9)
           (snd Scenario.round9) "meta" "0x2a" "0xd4"
           {| min_limit := 1000 |} Scenario.message7
           [ {| isError := false |} ]);
    reflexivity.
Defined.

End BeaconProperties.

(* ================================================================== *)
(** * The random value, for any bound *)
(* ================================================================== *)

Section RandomBound.

Local Open Scope Z_scope.

(** The double of a positive integer below [2^53] has that integer as its
    value. *)
Lemma binary64_value (n : Z) :
  0 < n < two53 ->
  exists B eB,
    binary64 n = S754_finite false B eB
    /\ Z.log2 n - 52 <= eB
    /\ Zpos B * 2 ^ (eB + 52) = n * 2 ^ 52.
Proof.
  unfold two53. intros [H0 H1]. unfold binary64, binary_normalize.
  destruct n as [|p|p]; [ lia | | lia ].
  unfold binary_round.
  pose proof (digits2_log2 p) as Hd.
  assert (Hlog : Z.log2 (Zpos p) < 53) by (apply Z.log2_lt_pow2; lia).
  pose proof (Z.log2_nonneg (Zpos p)) as Hlog0.
  assert (Ef : fexp 53 1024 (Zpos (digits2_pos p) + 0) = Z.log2 (Zpos p) - 52)
    by (unfold fexp, emin; lia).
  rewrite Ef. unfold shl_align.
  destruct (Z.log2 (Zpos p) - 52 - 0) as [|j|j] eqn:Ej; [ | lia | ].
  - destruct (binary_round_aux_value false (Zpos p) 0 ltac:(lia))
      as [(R0 & _) | (m & e & -> & He & Hv)].
    + cbn [Zdigits2]. lia.
    + lia.
    + exfalso. cbn [Zdigits2] in R0. rewrite Ef in R0.
      replace (Z.log2 (Zpos p) - 52 - 0) with 0 in R0 by lia.
      cbn in R0. lia.
    + cbn [Zdigits2] in Hv. rewrite Ef in Hv.
      replace (Z.log2 (Zpos p) - 52 - 0) with 0 in Hv by lia.
      change (round_at 0 (Zpos p)) with (Zpos p) in Hv.
      rewrite Z.sub_0_r in Hv.
      exists m, e. split; [ reflexivity | ]. split; [ lia | ].
      rewrite Z.pow_add_r, Z.mul_assoc, Hv by lia. reflexivity.
  - set (E := Z.log2 (Zpos p) - 52) in *.
    assert (EM : Zpos (Pos.iter xO p j) = Zpos p * 2 ^ Zpos j).
    { change (Pos.iter xO p j) with (Zpower.shift_pos j p).
      rewrite Zpower.shift_pos_correct, Z.pow_pos_fold. lia. }
    assert (PJ : 0 < 2 ^ Zpos j) by (apply Z.pow_pos_nonneg; lia).
    assert (DM : Zdigits2 (Zpos (Pos.iter xO p j)) = 53).
    { rewrite Zdigits2_log2 by lia. rewrite EM, Z.log2_mul_pow2 by lia. lia. }
    assert (EK : fexp 53 1024 (Zdigits2 (Zpos (Pos.iter xO p j)) + E) - E = 0)
      by (rewrite DM; unfold fexp, emin; lia).
    destruct (binary_round_aux_value false (Zpos (Pos.iter xO p j)) E
                ltac:(lia))
      as [(R0 & _) | (m & e & -> & He & Hv)].
    + rewrite DM. lia.
    + lia.
    + exfalso. rewrite EK in R0. cbn in R0. lia.
    + rewrite EK in Hv.
      change (round_at 0 (Zpos (Pos.iter xO p j)))
        with (Zpos (Pos.iter xO p j)) in Hv.
      exists m, e. split; [ reflexivity | ]. split; [ lia | ].
      replace (e + 52) with ((e - E) + (52 - Zpos j)) by lia.
      rewrite Z.pow_add_r, Z.mul_assoc, Hv, EM by lia.
      rewrite <- Z.mul_assoc, <- Z.pow_add_r by lia.
      do 2 f_equal. lia.
Qed.

(** [Math.floor(Math.random() * max)] for a positive integer [max] below
    [2^53]. *)
Lemma getRandomNumber_range_any (r : spec_float) (max : Z) :
  unit_double r = true -> 0 < max < two53 ->
  below max (Feeder.getRandomNumber r max).
Proof.
  intros Hr Hmax. unfold Feeder.getRandomNumber.
  destruct (binary64_value max Hmax) as (Bp & eB & -> & HeB & HB).
  unfold two53 in Hmax.
  pose proof (Z.log2_nonneg max) as Hl0.
  assert (Hl : Z.log2 max < 53) by (apply Z.log2_lt_pow2; lia).
  destruct (Z.log2_spec max ltac:(lia)) as [Hlo Hhi].
  rewrite Z.pow_succ_r in Hhi by lia.
  set (B := Zpos Bp) in *.
  assert (HB0 : 0 < B) by reflexivity.
  assert (P52 : 0 < 2 ^ (eB + 52)) by (apply Z.pow_pos_nonneg; lia).
  assert (HB53 : B < 2 ^ 53).
  { assert (Hle : 2 ^ Z.log2 max <= 2 ^ (eB + 52))
      by (apply Z.pow_le_mono_r; lia).
    assert (PL : 0 < 2 ^ Z.log2 max) by (apply Z.pow_pos_nonneg; lia).
    change (2 ^ 52) with 4503599627370496 in *.
    change (2 ^ 53) with 9007199254740992 in *. nia. }
  assert (HeB52 : eB + 52 < 105).
  { apply (Z.pow_lt_mono_r_iff 2); [ lia | lia | ].
    change (2 ^ 105) with (2 ^ 53 * 2 ^ 52).
    change (2 ^ 52) with 4503599627370496 in *.
    change (2 ^ 53) with 9007199254740992 in *. nia. }
  destruct r as [[|]|[|]| |[|] m e]; cbn [unit_double] in Hr;
    try discriminate.
  - exists 0. split; [ reflexivity | lia ].
  - apply andb_prop in Hr. destruct Hr as [Hb Hlt].
    unfold bounded, canonical_mantissa in Hb.
    apply andb_prop in Hb. destruct Hb as [Hc He].
    apply Z.eqb_eq in Hc. apply Z.leb_le in He. apply Z.ltb_lt in Hlt.
    assert (Hneg : e < 0).
    { destruct (Z.le_gt_cases 0 e) as [H0 | H0]; [ | assumption ].
      exfalso. destruct (- e) as [|q|q] eqn:Eq; try lia.
      cbn in Hlt. lia. }
    set (s := - e) in *.
    assert (Hs : 0 < s <= 1074) by (unfold fexp, emin in Hc; lia).
    assert (Hm53 : Zpos m < 2 ^ 53).
    { assert (Zdigits2 (Zpos m) <= 53)
        by (cbn [Zdigits2]; unfold fexp, emin in Hc; lia).
      apply Z.lt_le_trans with (2 ^ Zdigits2 (Zpos m));
        [ apply lt_pow_digits; lia | apply Z.pow_le_mono_r; lia ]. }
    cbn [SFmul xorb].
    set (M := Zpos (m * Bp)).
    assert (EM : M = Zpos m * B) by reflexivity.
    assert (P2s : 0 < 2 ^ s) by (apply Z.pow_pos_nonneg; lia).
    assert (HM : 0 < M) by reflexivity.
    assert (HMlt : M < B * 2 ^ s) by (rewrite EM; nia).
    assert (Hdig : Zdigits2 M <= 106).
    { apply digits_le; [ lia | lia | ].
      rewrite EM. change (2 ^ 106) with (2 ^ 53 * 2 ^ 53).
      change (2 ^ 53) with 9007199254740992 in *. nia. }
    set (E := e + eB).
    set (k := fexp 53 1024 (Zdigits2 M + E) - E).
    assert (Hround : round_at k M < B * 2 ^ s).
    { destruct (Z.le_gt_cases k 0) as [Hk | Hk].
      - unfold round_at.
        replace (k <=? 0) with true by (symmetry; apply Z.leb_le; lia).
        assumption.
      - destruct (Z.eq_dec k (Z.log2 M - 52)) as [Ek | Ek].
        + (* a normal product *)
          destruct (Z.log2_spec B HB0) as [Blo Bhi].
          pose proof (Z.log2_nonneg B) as Hb0.
          assert (Hb : Z.log2 B < 53) by (apply Z.log2_lt_pow2; lia).
          destruct (Z.eq_dec B (2 ^ Z.log2 B)) as [Epow | Npow].
          * (* the bound is a power of two: the product is exact *)
            rewrite round_at_exact; [ assumption | lia | ].
            assert (Hkb : k <= Z.log2 B).
            { assert (Z.log2 M < 53 + Z.log2 B); [ | lia ].
              apply Z.log2_lt_pow2; [ assumption | ].
              rewrite Z.pow_add_r by lia. rewrite EM, Epow at 1.
              assert (0 < 2 ^ Z.log2 B) by lia. nia. }
            rewrite EM, Epow.
            replace (Z.log2 B) with ((Z.log2 B - k) + k) by lia.
            rewrite Z.pow_add_r, Z.mul_assoc by lia.
            apply Z.mod_mul. apply Z.pow_nonzero; lia.
          * rewrite Ek, EM.
            apply (rounded_product_below B (Z.log2 B + 1) (Zpos m) s).
            -- lia.
            -- replace (Z.log2 B + 1 - 1) with (Z.log2 B) by lia.
               replace (Z.log2 B + 1) with (Z.succ (Z.log2 B)) by lia.
               lia.
            -- lia.
            -- lia.
            -- lia.
            -- rewrite <- EM. lia.
        + (* subnormal: only bits of the scaling of the bound are dropped *)
          assert (HkB : k <= - eB).
          { unfold k, fexp, emin, E in *.
            rewrite (Zdigits2_log2 M HM) in *. lia. }
          rewrite round_at_exact; [ assumption | lia | ].
          assert (EB : B = max * 2 ^ (- eB - k) * 2 ^ k).
          { rewrite <- Z.mul_assoc, <- Z.pow_add_r by lia.
            replace (- eB - k + k) with (- eB) by lia.
            apply (Z.mul_cancel_r _ _ (2 ^ (eB + 52))); [ lia | ].
            rewrite HB, <- Z.mul_assoc, <- Z.pow_add_r by lia.
            do 2 f_equal. lia. }
          rewrite EM, EB, !Z.mul_assoc.
          apply Z.mod_mul. apply Z.pow_nonzero; lia. }
    destruct (binary_round_aux_value false M E HM)
      as [(_ & ->) | (m' & e' & -> & He' & Hv)].
    + unfold E. lia.
    + unfold E. lia.
    + exists 0. split; [ reflexivity | lia ].
    + fold k in Hv. cbn [Math_floor cond_Zopp].
      eexists. split; [ reflexivity | ].
      apply (shiftl_floor_lt _ _ (s + 52));
        [ lia | lia | unfold E in He'; lia | ].
      replace (e' + (s + 52)) with ((e' - E) + (eB + 52))
        by (unfold E, s; lia).
      rewrite Z.pow_add_r, Z.mul_assoc, Hv by (unfold E in He'; lia).
      rewrite (Z.pow_add_r 2 s 52) by lia.
      assert (round_at k M * 2 ^ (eB + 52) < B * 2 ^ s * 2 ^ (eB + 52))
        by (apply Z.mul_lt_mono_pos_r; assumption).
      replace (B * 2 ^ s * 2 ^ (eB + 52))
        with (B * 2 ^ (eB + 52) * 2 ^ s) in H by ring.
      rewrite HB in H. lia.
Qed.

End RandomBound.

(* ================================================================== *)
(** * The errors that escape the producer *)
(* ================================================================== *)

Section ProducerFaults.

Variable random_source : nat -> spec_float.
Variable api : nat -> GearApi.

(** The node accepts every transaction: no status event reports an error. *)
Hypothesis node_accepts :
  forall k m evs, signAndSend (api k) m = Ok evs ->
                  forallb (fun ev => negb (isError ev)) evs = true.













End ProducerFaults.

Section FurtherProperties.

Local Open Scope Z_scope.

(** X14.  [getRandomNumber(max)] for any positive integer [max] below
    [2^53], not only the bound that [main] passes: for every double the
    random source may return, the product rounded to a double and floored
    is an integer in [[0, max)]; rounding never lifts it to [max]. *)
Theorem getRandomNumber_below_any_bound (random : spec_float) (max : Z) :
  unit_double random = true -> 0 < max < two53 ->
  exists z, Feeder.getRandomNumber random max = Num z /\ 0 <= z < max.
Proof. exact (getRandomNumber_range_any random max). Qed.

Lemma getRandomNumber_below_any_bound_witness :
  exists z, Feeder.getRandomNumber Scenario.half 6 = Num z /\ 0 <= z < 6.
Proof.
  apply (getRandomNumber_below_any_bound Scenario.half 6);
    [ reflexivity | unfold two53; lia ].
Defined.



End FurtherProperties.
